(** * The PDF document registry of RAG-GENAI-APP

    A shallow embedding of [backend/src/models/pdfs.model.js]: the
    Mongoose schema [PdfSchema] (fields, validators, defaults), its
    pre-save middleware, the access methods [getUserPermission] and
    [hasAccess], the sharing methods [shareWith] and [removeSharing] and the
    static query [findByUser], followed by the properties the design document
    states about them. *)

From Stdlib Require Import ZArith Ascii.
From stdpp Require Import base decidable option list strings gmap pretty.

Local Open Scope Z_scope.
Local Open Scope string_scope.

(** * The sign-up form (frontend/src/pages/SignUp.tsx)

    The state of the page, [validateForm] and [handleInputChange], with the
    regular expression that [validateForm] tests the e-mail address against.
    A string is a sequence of code units; the model has the code units below
    256, one [ascii] each. *)

Module SignUp.

(** ** Regular expressions *)

(** Regular expressions over code units, with a character class given by
    its membership test. *)
Inductive regex :=
  | Void
  | Eps
  | Class (f : ascii → bool)
  | Seq (r1 r2 : regex)
  | Alt (r1 r2 : regex)
  | Star (r : regex).

(** [r+], a literal character, and any character. *)
Definition Plus (r : regex) : regex := Seq r (Star r).
Definition Lit (c : ascii) : regex := Class (Ascii.eqb c).
Definition any : regex := Class (λ _, true).

(** The strings a regular expression matches as a whole. *)
Inductive lang : regex → list ascii → Prop :=
  | lang_eps : lang Eps []
  | lang_class f c : f c = true → lang (Class f) [c]
  | lang_seq r1 r2 s1 s2 : lang r1 s1 → lang r2 s2 → lang (Seq r1 r2) (s1 ++ s2)
  | lang_alt_l r1 r2 s : lang r1 s → lang (Alt r1 r2) s
  | lang_alt_r r1 r2 s : lang r2 s → lang (Alt r1 r2) s
  | lang_star_nil r : lang (Star r) []
  | lang_star_cons r s1 s2 : lang r s1 → lang (Star r) s2 → lang (Star r) (s1 ++ s2).

(** Matching by derivatives. *)
Fixpoint nullable (r : regex) : bool :=
  match r with
  | Void => false
  | Eps => true
  | Class _ => false
  | Seq r1 r2 => nullable r1 && nullable r2
  | Alt r1 r2 => nullable r1 || nullable r2
  | Star _ => true
  end.

Fixpoint deriv (c : ascii) (r : regex) : regex :=
  match r with
  | Void => Void
  | Eps => Void
  | Class f => if f c then Eps else Void
  | Seq r1 r2 =>
      if nullable r1 then Alt (Seq (deriv c r1) r2) (deriv c r2)
      else Seq (deriv c r1) r2
  | Alt r1 r2 => Alt (deriv c r1) (deriv c r2)
  | Star r => Seq (deriv c r) (Star r)
  end.

Fixpoint matchb (r : regex) (s : list ascii) : bool :=
  match s with
  | [] => nullable r
  | c :: s => matchb (deriv c r) s
  end.

(** [r.test(s)] for a regular expression without flags: some substring of
    [s] matches [r]. *)
Definition test (r : regex) (s : string) : bool :=
  matchb (Seq (Star any) (Seq r (Star any))) (String.list_ascii_of_string s).

(** The class [\s] on code units below 256: TAB, LF, VT, FF, CR, SPACE and
    NO-BREAK SPACE. *)
Definition is_space (c : ascii) : bool :=
  match N_of_ascii c with
  | 9 | 10 | 11 | 12 | 13 | 32 | 160 => true
  | _ => false
  end%N.

(** The class [\S]. *)
Definition non_space : regex := Class (λ c, negb (is_space c)).

(** [/\S+@\S+\.\S+/] (line 33). *)
Definition email_regex : regex :=
  Seq (Plus non_space)
      (Seq (Lit "@"%char)
           (Seq (Plus non_space)
                (Seq (Lit "."%char) (Plus non_space)))).

(** A non-empty string without white space: what [\S+] matches. *)
Definition word (w : string) : Prop :=
  w ≠ "" ∧ Forall (λ c, is_space c = false) (String.list_ascii_of_string w).

(** ** The state of the page (lines 9-16) *)

Record State := mkState {
  formData : gmap string string;
  errors : gmap string string;
  showPassword : bool;
  isLoading : bool
}.

Definition initial : State :=
  mkState (<["fullName" := ""]> (<["email" := ""]> (<["password" := ""]> ∅)))
          ∅ false false.

Definition setFormData (f : gmap string string) (st : State) : State :=
  mkState f (errors st) (showPassword st) (isLoading st).

Definition setErrors (e : gmap string string) (st : State) : State :=
  mkState (formData st) e (showPassword st) (isLoading st).

(** Truthiness of a property that holds a string when it is there. *)
Definition truthy (v : option string) : bool :=
  match v with
  | Some s => negb (String.eqb s "")
  | None => false
  end.

(** [v.length] of a property that is there. *)
Definition length_of (v : option string) : nat := String.length (default "" v).

(** ** [validateForm] (lines 18-46) *)

(** The errors [validateForm] collects in [newErrors]. *)
Definition newErrors (form : gmap string string) : gmap string string :=
  let newErrors : gmap string string := ∅ in
  let newErrors :=
    if negb (truthy (form !! "fullName")) then
      <["fullName" := "Full name is required"]> newErrors
    else if (length_of (form !! "fullName") <? 3)%nat then
      <["fullName" := "Full name must be at least 3 characters"]> newErrors
    else if (50 <? length_of (form !! "fullName"))%nat then
      <["fullName" := "Full name must be less than 50 characters"]> newErrors
    else newErrors in
  let newErrors :=
    if negb (truthy (form !! "email")) then
      <["email" := "Email is required"]> newErrors
    else if negb (test email_regex (default "" (form !! "email"))) then
      <["email" := "Please enter a valid email address"]> newErrors
    else newErrors in
  let newErrors :=
    if negb (truthy (form !! "password")) then
      <["password" := "Password is required"]> newErrors
    else if (length_of (form !! "password") <? 6)%nat then
      <["password" := "Password must be at least 6 characters"]> newErrors
    else newErrors in
  newErrors.

(** [validateForm()]: the errors are stored in the state, and the result
    says whether there were none ([Object.keys(newErrors).length === 0]). *)
Definition validateForm (st : State) : State * bool :=
  let e := newErrors (formData st) in
  (setErrors e st, bool_decide (length (map_to_list e).*1 = 0%nat)).

(** ** [handleInputChange] (lines 119-127) *)

(** The handler on an event whose target has the given [name] and
    [value]. *)
Definition handleInputChange (name value : string) (st : State) : State :=
  let st' := setFormData (<[name := value]> (formData st)) st in
  if truthy (errors st !! name) then
    setErrors (<[name := ""]> (errors st')) st'
  else st'.

End SignUp.

Module Pdfs.

(** ** Values *)

(** An ObjectId is used by every method through [toString()] only, so it is
    represented by that string. A date is a number of milliseconds. *)
Abbreviation ObjectId := string (only parsing).
Abbreviation Date := Z (only parsing).

(** [shared_with.permission]: enum ["read", "write"]. *)
Inductive Permission := read | write.

(** [indexing_status]: enum ["pending", "processing", "completed", "failed"]. *)
Inductive IndexingStatus := pending | processing | completed | failed.

(** What [getUserPermission] returns: 'owner', a grant's permission ('read'
    or 'write'), or 'none'. *)
Inductive Level := owner | granted (p : Permission) | none.

#[global] Instance Permission_eq_dec : EqDecision Permission.
Proof. solve_decision. Defined.
#[global] Instance IndexingStatus_eq_dec : EqDecision IndexingStatus.
Proof. solve_decision. Defined.
#[global] Instance Level_eq_dec : EqDecision Level.
Proof. solve_decision. Defined.

(** An entry of the [shared_with] array. The schema (lines 100-110) declares
    the paths [user] and [permission]; [shareWith] writes the properties
    [user_id], [permission] and [shared_at], and [getUserPermission],
    [shareWith] and [removeSharing] read [user_id]. Every property is kept as
    the code names it, absent ([None]) when the object does not have it. *)
Record Grant := mkGrant {
  user : option ObjectId;
  user_id : option ObjectId;
  permission : option Permission;
  shared_at : option Date
}.

#[global] Instance Grant_eq_dec : EqDecision Grant.
Proof. solve_decision. Defined.

(** A document of the [pdfs] collection, field by field as [PdfSchema]
    declares it. Optional paths are options; [String] paths hold the value as
    stored (after the schema setters); numbers are integers. [modifiedPaths]
    is the change tracking that [isModified] consults: the paths the caller
    has assigned since the last save. The paths that the pre-save hook and
    the sharing methods assign themselves are not added to it; none of them
    is [is_indexed], the one path the code asks [isModified] about. *)
Record Pdf := mkPdf {
  name : option string;
  original_name : option string;
  uuid : option string;
  size : option Z;
  mime_type : string;
  page_count : option Z;
  is_indexed : bool;
  indexing_status : IndexingStatus;
  indexed_at : option Date;
  total_chunks : Z;
  successful_chunks : Z;
  uploaded_by : ObjectId;
  error_message : option string;
  description : option string;
  tags : list string;
  milvus_collection : string;
  is_public : bool;
  shared_with : list Grant;
  modifiedPaths : list string
}.

Definition isModified (path : string) (d : Pdf) : bool :=
  bool_decide (path ∈ modifiedPaths d).

(** Field updates ([this.f = v]). *)
Definition set_shared_with (l : list Grant) (d : Pdf) : Pdf :=
  mkPdf (name d) (original_name d) (uuid d) (size d) (mime_type d)
        (page_count d) (is_indexed d) (indexing_status d) (indexed_at d)
        (total_chunks d) (successful_chunks d) (uploaded_by d)
        (error_message d) (description d) (tags d) (milvus_collection d)
        (is_public d) l (modifiedPaths d).

Definition set_indexed_at (t : Date) (d : Pdf) : Pdf :=
  mkPdf (name d) (original_name d) (uuid d) (size d) (mime_type d)
        (page_count d) (is_indexed d) (indexing_status d) (Some t)
        (total_chunks d) (successful_chunks d) (uploaded_by d)
        (error_message d) (description d) (tags d) (milvus_collection d)
        (is_public d) (shared_with d) (modifiedPaths d).

Definition set_indexing_status (s : IndexingStatus) (d : Pdf) : Pdf :=
  mkPdf (name d) (original_name d) (uuid d) (size d) (mime_type d)
        (page_count d) (is_indexed d) s (indexed_at d)
        (total_chunks d) (successful_chunks d) (uploaded_by d)
        (error_message d) (description d) (tags d) (milvus_collection d)
        (is_public d) (shared_with d) (modifiedPaths d).

Definition set_original_name (s : option string) (d : Pdf) : Pdf :=
  mkPdf (name d) s (uuid d) (size d) (mime_type d)
        (page_count d) (is_indexed d) (indexing_status d) (indexed_at d)
        (total_chunks d) (successful_chunks d) (uploaded_by d)
        (error_message d) (description d) (tags d) (milvus_collection d)
        (is_public d) (shared_with d) (modifiedPaths d).

Definition set_modifiedPaths (l : list string) (d : Pdf) : Pdf :=
  mkPdf (name d) (original_name d) (uuid d) (size d) (mime_type d)
        (page_count d) (is_indexed d) (indexing_status d) (indexed_at d)
        (total_chunks d) (successful_chunks d) (uploaded_by d)
        (error_message d) (description d) (tags d) (milvus_collection d)
        (is_public d) (shared_with d) l.

(** JavaScript truthiness of an optional string: [undefined] and the empty
    string are falsy. *)
Definition truthy (s : option string) : bool :=
  match s with
  | Some s => negb (String.eqb s "")
  | None => false
  end.

(** ** Pre-save middleware (lines 146-155) *)

Definition pre_save (now : Date) (d : Pdf) : Pdf :=
  let d :=
    if isModified "is_indexed" d && is_indexed d
       && bool_decide (indexed_at d = None)
    then set_indexing_status completed (set_indexed_at now d)
    else d in
  if negb (truthy (original_name d)) && truthy (name d)
  then set_original_name (name d) d
  else d.

(** ** Schema validation (lines 3-110) *)

(** A validator failure: the path and the message the schema attaches. *)
Record ValidatorError := mkError { path : string; message : string }.

#[global] Instance ValidatorError_eq_dec : EqDecision ValidatorError.
Proof. solve_decision. Defined.

(** [required] on a String path: the value must be present and non-empty. *)
Definition check_required (p msg : string) (v : option string) : list ValidatorError :=
  if truthy v then [] else [mkError p msg].

(** [required] on a Number path. *)
Definition check_required_num (p msg : string) (v : option Z) : list ValidatorError :=
  match v with Some _ => [] | None => [mkError p msg] end.

(** [maxlength: [n, msg]]: passes on an absent value and when
    [v.length <= n]. *)
Definition check_maxlength (p : string) (n : nat) (msg : string) (v : option string)
  : list ValidatorError :=
  match v with
  | Some s => if bool_decide (String.length s ≤ n)%nat then [] else [mkError p msg]
  | None => []
  end.

(** [min: [n, msg]]: passes on an absent value and when [v >= n]. *)
Definition check_min (p : string) (n : Z) (msg : string) (v : option Z)
  : list ValidatorError :=
  match v with
  | Some z => if bool_decide (n ≤ z)%Z then [] else [mkError p msg]
  | None => []
  end.

(** The element validator of [tags], run on every element; the path of the
    i-th element is [tags.i]. *)
Definition check_tags (l : list string) : list ValidatorError :=
  mjoin (imap (λ i t, check_maxlength ("tags." +:+ pretty i) 50
                        "Tag cannot exceed 50 characters" (Some t)) l).

(** The validators of the paths whose values the model leaves free, in the
    order of the schema. [required] on [uploaded_by] and the [enum]
    validators of [indexing_status] and [shared_with.permission] have nothing
    to report here: by its types every document of the model has an owner
    and holds declared enum values. The unique index on [uuid] belongs to the
    collection, not to the validation of one document. *)
Definition validate (d : Pdf) : list ValidatorError :=
  check_required "name" "PDF name is required" (name d)
  ++ check_maxlength "name" 255 "PDF name cannot exceed 255 characters" (name d)
  ++ check_required "original_name" "Path `original_name` is required." (original_name d)
  ++ check_required "uuid" "PDF UUID is required" (uuid d)
  ++ check_required_num "size" "File size is required" (size d)
  ++ check_min "size" 0 "File size cannot be negative" (size d)
  ++ check_min "page_count" 0 "Page count cannot be negative" (page_count d)
  ++ check_min "total_chunks" 0 "Total chunks cannot be negative" (Some (total_chunks d))
  ++ check_min "successful_chunks" 0 "Successful chunks cannot be negative"
       (Some (successful_chunks d))
  ++ check_maxlength "description" 500 "Description cannot exceed 500 characters"
       (description d)
  ++ check_tags (tags d).

(** ** [save] *)

Inductive SaveResult :=
  | Saved
  | ValidationError (errors : list ValidatorError).

(** [this.save()]: the document is validated; when a validator fails the
    save is rejected with a ValidationError and nothing else happens. Otherwise
    the pre-save middleware runs, the document is written and its change
    tracking is reset. Returns the document as it is in memory afterwards. *)
Definition save (now : Date) (d : Pdf) : Pdf * SaveResult :=
  match validate d with
  | [] => (set_modifiedPaths [] (pre_save now d), Saved)
  | errors => (d, ValidationError errors)
  end.

(** ** Access methods *)

(** The predicate of the [find]/[findIndex] callbacks of lines 173-175,
    205-207 and 235-237:
    [share => share.user_id && share.user_id.toString() === userId.toString()]. *)
Definition share_matches (userId : ObjectId) (share : Grant) : Prop :=
  user_id share = Some userId.

#[global] Instance share_matches_dec userId share : Decision (share_matches userId share).
Proof. unfold share_matches. apply _. Defined.

(** [getUserPermission] (lines 157-182). [uploaded_by] is an ObjectId, whose
    [_id] is the ObjectId itself, so both branches of the conditional that
    computes [ownerIdStr] give its string. *)
Definition getUserPermission (userId : ObjectId) (d : Pdf) : Level :=
  let userIdStr := userId in
  let ownerIdStr := uploaded_by d in
  if bool_decide (userIdStr = ownerIdStr) then owner
  else if is_public d then granted read
  else
    if bool_decide (0 < length (shared_with d))%nat then
      match list_find (share_matches userIdStr) (shared_with d) with
      | Some (_, userShare) => granted (default read (permission userShare))
      | None => none
      end
    else none.

(** The first [hasAccess] (lines 128-132), which reads [entry.user]. On an
    entry without [user] the call [entry.user.toString()] would throw; such
    an entry is taken as not matching, this definition being replaced (see
    [methods]) before any call can reach it. *)
Definition hasAccess_128 (userId : ObjectId) (d : Pdf) : bool :=
  if bool_decide (uploaded_by d = userId) then true
  else if is_public d then true
  else bool_decide (Exists (λ entry, user entry = Some userId) (shared_with d)).

(** The second [hasAccess] (lines 185-188), defined through
    [getUserPermission]. *)
Definition hasAccess_185 (userId : ObjectId) (d : Pdf) : bool :=
  let permission := getUserPermission userId d in
  negb (bool_decide (permission = none)).

(** [PdfSchema.methods] after both assignments to [PdfSchema.methods.hasAccess]
    have run, in source order: an assignment to a property that exists
    replaces it. *)
Definition methods : gmap string (ObjectId → Pdf → bool) :=
  <["hasAccess" := hasAccess_185]> (<["hasAccess" := hasAccess_128]> ∅).

(** [doc.hasAccess(userId)]: the method the table holds under that name. *)
Definition hasAccess (userId : ObjectId) (d : Pdf) : bool :=
  match methods !! "hasAccess" with
  | Some method => method userId d
  | None => false
  end.

(** ** Sharing methods *)

(** How a call on a document ends: it throws [new Error(msg)], or it returns
    what [this.save()] gives. *)
Inductive Outcome :=
  | Threw (msg : string)
  | Returned (r : SaveResult).

(** What the [shared_with] array keeps of an object assigned into it. The
    array is typed by the sub-schema of lines 100-110. With the schema option
    [strict] on (Mongoose's default, which the options of lines 111-115 leave
    untouched) an entry keeps the declared paths [user] and [permission] only;
    with [strict] off it keeps every property. In both cases a missing
    [permission] takes the declared default "read". *)
Definition stored (strict : bool) (g : Grant) : Grant :=
  let p := Some (default read (permission g)) in
  if strict then mkGrant (user g) None p None
  else mkGrant (user g) (user_id g) p (shared_at g).

(** [shareWith] (lines 193-224); [permission = 'read'] is the default of the
    parameter. The result is the document as it is in memory after the call,
    and how the call ended. *)
Definition shareWith (strict : bool) (now : Date)
    (userId : ObjectId) (permission_arg : option Permission) (d : Pdf)
  : Pdf * Outcome :=
  let permission := default read permission_arg in
  if bool_decide (uploaded_by d = userId) then
    (d, Threw "Cannot share PDF with owner")
  else
    let d :=
      match list_find (share_matches userId) (shared_with d) with
      | Some (existingShareIndex, share) =>
          set_shared_with
            (<[existingShareIndex :=
                 stored strict (mkGrant (user share) (user_id share)
                                        (Some permission) (Some now))]>
               (shared_with d)) d
      | None =>
          set_shared_with
            (shared_with d ++
               [stored strict (mkGrant None (Some userId) (Some permission) (Some now))]) d
      end in
    let '(d, r) := save now d in (d, Returned r).

(** [removeSharing] (lines 228-248). *)
Definition removeSharing (now : Date) (userId : ObjectId) (d : Pdf) : Pdf * Outcome :=
  if bool_decide (length (shared_with d) = 0%nat) then
    (d, Threw "PDF is not shared with any users")
  else
    match list_find (share_matches userId) (shared_with d) with
    | None => (d, Threw "PDF is not shared with this user")
    | Some (shareIndex, _) =>
        let d := set_shared_with (delete shareIndex (shared_with d)) d in
        let '(d, r) := save now d in (d, Returned r)
    end.

(** ** [findByUser] (lines 135-143) *)

(** The filter [{$or: [{uploaded_by: userId}, {is_public: true},
    {'shared_with.user': userId}]}] on one document. *)
Definition visible_to (userId : ObjectId) (d : Pdf) : Prop :=
  uploaded_by d = userId
  ∨ is_public d = true
  ∨ Exists (λ entry, user entry = Some userId) (shared_with d).

#[global] Instance visible_to_dec userId d : Decision (visible_to userId d).
Proof. unfold visible_to. apply _. Defined.

(** [findByUser(userId)] with the default [options = {}], over the documents
    of the collection. *)
Definition findByUser (userId : ObjectId) (collection : list Pdf) : list Pdf :=
  filter (visible_to userId) collection.

(** ** Vocabulary of the design document *)

(** A grant names a user through the path the schema declares ([user]) or
    through the property the sharing methods write ([user_id]); the design
    treats the two as one. *)
Definition grant_names (u : ObjectId) (g : Grant) : Prop :=
  user g = Some u ∨ user_id g = Some u.

#[global] Instance grant_names_dec u g : Decision (grant_names u g).
Proof. unfold grant_names. apply _. Defined.

(** The grants of a document that name [u]. *)
Definition grants_of (u : ObjectId) (d : Pdf) : list Grant :=
  filter (grant_names u) (shared_with d).

(** An entry as the schema declares it: [user] and [permission] only. *)
Definition schema_grant (u : ObjectId) (p : Permission) : Grant :=
  mkGrant (Some u) None (Some p) None.

(** A freshly uploaded document with the schema defaults: pending, 0/0
    chunks, private, not shared. *)
Definition uploaded (owner_id : ObjectId) (n : string) (sz : Z) : Pdf :=
  mkPdf (Some n) (Some n) (Some "uuid-1") (Some sz) "application/pdf" None
        false pending None 0 0 owner_id None None [] "RAG_TEXT_EMBEDDING"
        false [] [].

(** A document on which indexing is in progress for the second time:
    [indexed_at] was set by an earlier run, and [is_indexed] has just been
    set to true again. *)
Definition reindexed : Pdf :=
  mkPdf (Some "a.pdf") (Some "a.pdf") (Some "uuid-1") (Some 10) "application/pdf"
        None true processing (Some 1) 3 3 "A" None None [] "RAG_TEXT_EMBEDDING"
        false [] ["is_indexed"].

(** A document indexed for the first time. *)
Definition first_indexed : Pdf :=
  mkPdf (Some "a.pdf") (Some "a.pdf") (Some "uuid-1") (Some 10) "application/pdf"
        None true processing None 3 3 "A" None None [] "RAG_TEXT_EMBEDDING"
        false [] ["is_indexed"].


Definition set_name (s : option string) (d : Pdf) : Pdf :=
  mkPdf s (original_name d) (uuid d) (size d) (mime_type d)
        (page_count d) (is_indexed d) (indexing_status d) (indexed_at d)
        (total_chunks d) (successful_chunks d) (uploaded_by d)
        (error_message d) (description d) (tags d) (milvus_collection d)
        (is_public d) (shared_with d) (modifiedPaths d).

(** A string value longer than [n] characters. *)
Definition exceeds (n : nat) (v : option string) : Prop :=
  ∃ s, v = Some s ∧ (n < String.length s)%nat.

(** A number value below [n]. *)
Definition below (n : Z) (v : option Z) : Prop :=
  ∃ z, v = Some z ∧ (z < n)%Z.

(** One of the declared bounds on name, description, tags and size is
    violated. *)
Definition bound_violated (d : Pdf) : Prop :=
  exceeds 255 (name d)
  ∨ exceeds 500 (description d)
  ∨ Exists (λ t, 50 < String.length t)%nat (tags d)
  ∨ below 0 (size d).

(** Validation reports the message [msg]. *)
Definition reports (d : Pdf) (msg : string) : Prop :=
  msg ∈ message <$> validate d.

(** ** Further vocabulary *)

(** What the validators of [PdfSchema] ask of a document, path by path. *)
Definition well_formed (d : Pdf) : Prop :=
  truthy (name d) = true
  ∧ ¬ exceeds 255 (name d)
  ∧ truthy (original_name d) = true
  ∧ truthy (uuid d) = true
  ∧ (∃ z, size d = Some z ∧ (0 ≤ z)%Z)
  ∧ ¬ below 0 (page_count d)
  ∧ (0 ≤ total_chunks d)%Z
  ∧ (0 ≤ successful_chunks d)%Z
  ∧ ¬ exceeds 500 (description d)
  ∧ Forall (λ t, String.length t ≤ 50)%nat (tags d).

(** Two documents of the model that differ at most in the three paths the
    pre-save hook assigns: [indexed_at], [indexing_status] and
    [original_name]. *)
Definition same_but_hook_paths (d d' : Pdf) : Prop :=
  name d' = name d ∧ uuid d' = uuid d ∧ size d' = size d
  ∧ mime_type d' = mime_type d ∧ page_count d' = page_count d
  ∧ is_indexed d' = is_indexed d
  ∧ total_chunks d' = total_chunks d ∧ successful_chunks d' = successful_chunks d
  ∧ uploaded_by d' = uploaded_by d ∧ error_message d' = error_message d
  ∧ description d' = description d ∧ tags d' = tags d
  ∧ milvus_collection d' = milvus_collection d ∧ is_public d' = is_public d
  ∧ shared_with d' = shared_with d ∧ modifiedPaths d' = modifiedPaths d.

(** ** The [size_mb] virtual (lines 123-125) *)

(** [x.toFixed(2)] for a number [x >= 0] that lies nearest to [n] hundredths:
    the decimal digits of [n], padded to three, with a point before the last
    two. *)
Definition toFixed2_digits (n : N) : string :=
  pretty (n / 100)%N +:+ "." +:+ pretty ((n mod 100) / 10)%N +:+ pretty (n mod 10)%N.

(** The integer [n] for which [n / 100] is nearest to [|z| / 2^20], the
    larger one when two are equally near (the rule of [toFixed]). *)
Definition mb_hundredths (z : Z) : N :=
  Z.to_N ((100 * Z.abs z + 2 ^ 19) / 2 ^ 20).

(** [(this.size / (1024 * 1024)).toFixed(2)]. [size] is a whole number of
    bytes; below 2^53 in absolute value it is an exact double and so is its
    quotient by 2^20, so the number [toFixed(2)] rounds is exactly
    [size / 2^20]. [toFixed] writes "-" before a negative number and rounds
    its absolute value. An absent [size] makes the quotient NaN. *)
Definition size_mb (d : Pdf) : string :=
  match size d with
  | None => "NaN"
  | Some z =>
      (if bool_decide (z < 0)%Z then "-" else "") +:+ toFixed2_digits (mb_hundredths z)
  end.

Definition set_size (z : option Z) (d : Pdf) : Pdf :=
  mkPdf (name d) (original_name d) (uuid d) z (mime_type d)
        (page_count d) (is_indexed d) (indexing_status d) (indexed_at d)
        (total_chunks d) (successful_chunks d) (uploaded_by d)
        (error_message d) (description d) (tags d) (milvus_collection d)
        (is_public d) (shared_with d) (modifiedPaths d).

(** Two documents whose schema paths hold the same values, except possibly
    [indexed_at], [indexing_status] and [original_name]. *)
Definition same_values_but_hook_paths (d d' : Pdf) : Prop :=
  name d' = name d ∧ uuid d' = uuid d ∧ size d' = size d
  ∧ mime_type d' = mime_type d ∧ page_count d' = page_count d
  ∧ is_indexed d' = is_indexed d
  ∧ total_chunks d' = total_chunks d ∧ successful_chunks d' = successful_chunks d
  ∧ uploaded_by d' = uploaded_by d ∧ error_message d' = error_message d
  ∧ description d' = description d ∧ tags d' = tags d
  ∧ milvus_collection d' = milvus_collection d ∧ is_public d' = is_public d
  ∧ shared_with d' = shared_with d.

(** * Properties *)

(** ** The methods table *)

Lemma methods_hasAccess : methods !! "hasAccess" = Some hasAccess_185.
Proof. unfold methods. apply lookup_insert_eq. Qed.

Lemma hasAccess_unfold userId d :
  hasAccess userId d = negb (bool_decide (getUserPermission userId d = none)).
Proof. unfold hasAccess. now rewrite methods_hasAccess. Qed.

(** C9. [hasAccess(userId)] is true exactly when [getUserPermission(userId)]
    is not 'none': the later assignment to [PdfSchema.methods.hasAccess] is the
    one in force. *)
Theorem hasAccess_iff_permission (userId : ObjectId) (d : Pdf) :
  hasAccess userId d = true ↔ getUserPermission userId d ≠ none.
Proof.
  rewrite hasAccess_unfold, negb_true_iff, bool_decide_eq_false. reflexivity.
Qed.

(** ** The pre-save middleware *)

(** Case analysis on the two guards of the hook. *)
Ltac hook_cases :=
  unfold pre_save; repeat case_match; cbn in *;
  repeat split; first [reflexivity | congruence].

Section PreSave.
Variable now : Date.
Variable d : Pdf.

(** The first statement of the hook, by cases on its guard. *)
Lemma pre_save_indexed_at :
  indexed_at (pre_save now d) =
    if isModified "is_indexed" d && is_indexed d && bool_decide (indexed_at d = None)
    then Some now else indexed_at d.
Proof.
  hook_cases.
Qed.

Lemma pre_save_indexing_status :
  indexing_status (pre_save now d) =
    if isModified "is_indexed" d && is_indexed d && bool_decide (indexed_at d = None)
    then completed else indexing_status d.
Proof.
  hook_cases.
Qed.

Lemma pre_save_name : name (pre_save now d) = name d.
Proof. hook_cases. Qed.

(** The second statement of the hook. *)
Lemma pre_save_original_name_eq :
  original_name (pre_save now d) =
    if negb (truthy (original_name d)) && truthy (name d)
    then name d else original_name d.
Proof. hook_cases. Qed.


Lemma pre_save_shared_with : shared_with (pre_save now d) = shared_with d.
Proof. hook_cases. Qed.

(** A save that succeeds leaves the hook's result in memory, with the
    change tracking reset. *)
Lemma save_Saved d' :
  save now d = (d', Saved) →
  validate d = [] ∧ d' = set_modifiedPaths [] (pre_save now d).
Proof.
  unfold save. destruct (validate d); intros H; [|discriminate].
  now inversion H.
Qed.

Lemma save_rejected d' errors :
  save now d = (d', ValidationError errors) → d' = d ∧ errors = validate d ∧ errors ≠ [].
Proof.
  unfold save. destruct (validate d) eqn:E; intros H; [discriminate|].
  inversion H; subst. done.
Qed.
End PreSave.

(** The hook on its own: run on a document whose [original_name] is unset or
    empty while [name] is set, it copies [name] into [original_name]; after
    the hook, and after every save that succeeds, a document with a
    non-empty [name] has a non-empty [original_name]. *)
Theorem pre_save_original_name (now : Date) (d : Pdf) :
  (truthy (original_name d) = false → truthy (name d) = true →
     original_name (pre_save now d) = name d)
  ∧ (truthy (name (pre_save now d)) = true →
     truthy (original_name (pre_save now d)) = true)
  ∧ (∀ d', save now d = (d', Saved) →
       truthy (name d') = true → truthy (original_name d') = true).
Proof.
  assert (Hhook : truthy (name (pre_save now d)) = true →
                  truthy (original_name (pre_save now d)) = true).
  { rewrite pre_save_name, pre_save_original_name_eq. intros Hn. rewrite Hn.
    destruct (truthy (original_name d)) eqn:Ho; cbn; [exact Ho | exact Hn]. }
  split; [|split].
  - intros Ho Hn. rewrite pre_save_original_name_eq, Ho, Hn. reflexivity.
  - exact Hhook.
  - intros d' [_ ->]%save_Saved. cbn. exact Hhook.
Qed.

Lemma pre_save_original_name_witness :
  original_name (pre_save 7 (set_original_name None (uploaded "A" "a.pdf" 10)))
  = Some "a.pdf".
Proof.
  apply (pre_save_original_name 7 (set_original_name None (uploaded "A" "a.pdf" 10)));
    reflexivity.
Defined.

(** C3, at the input that separates the code from the claim: [is_indexed] is
    modified to true on a document whose [indexed_at] is already set. The save
    succeeds and [indexing_status] is left at processing, not set to
    completed. *)
Lemma save_reindexed_keeps_status :
  isModified "is_indexed" reindexed = true
  ∧ is_indexed reindexed = true
  ∧ (save 9 reindexed).2 = Saved
  ∧ indexing_status (pre_save 9 reindexed) = processing
  ∧ indexing_status (save 9 reindexed).1 ≠ completed.
Proof. repeat split; try reflexivity. cbn. discriminate. Qed.

(** C3, as the code has it. On a save that succeeds: when [is_indexed] is
    modified, true, and [indexed_at] is unset, the same save sets [indexed_at]
    to the current time and [indexing_status] to completed; in every other
    case the save changes neither field, so an [indexed_at] that is set is
    never cleared or changed. *)
Theorem save_indexing_fields (now : Date) (d d' : Pdf) :
  save now d = (d', Saved) →
  (isModified "is_indexed" d = true → is_indexed d = true → indexed_at d = None →
     indexed_at d' = Some now ∧ indexing_status d' = completed)
  ∧ (∀ t, indexed_at d = Some t →
       indexed_at d' = Some t ∧ indexing_status d' = indexing_status d)
  ∧ (isModified "is_indexed" d && is_indexed d = false →
       indexed_at d' = indexed_at d ∧ indexing_status d' = indexing_status d).
Proof.
  intros [_ ->]%save_Saved. cbn.
  rewrite pre_save_indexed_at, pre_save_indexing_status.
  split; [|split].
  - intros -> -> ->. done.
  - intros t ->. rewrite andb_false_r. done.
  - intros ->. done.
Qed.

Lemma save_indexing_fields_witness :
  indexed_at (save 9 first_indexed).1 = Some 9
  ∧ indexing_status (save 9 first_indexed).1 = completed.
Proof.
  apply (save_indexing_fields 9 first_indexed (save 9 first_indexed).1);
    reflexivity.
Defined.

(** ** Validation *)

Section Validators.
Variables (p msg m : string).

Lemma check_required_msg v :
  m ∈ message <$> check_required p msg v ↔ m = msg ∧ truthy v = false.
Proof.
  unfold check_required. destruct (truthy v); cbn.
  - rewrite elem_of_nil. intuition discriminate.
  - rewrite list_elem_of_singleton. intuition.
Qed.

Lemma check_required_num_msg v :
  m ∈ message <$> check_required_num p msg v ↔ m = msg ∧ v = None.
Proof.
  destruct v; cbn.
  - rewrite elem_of_nil. intuition discriminate.
  - rewrite list_elem_of_singleton. intuition.
Qed.

Lemma check_maxlength_msg n v :
  m ∈ message <$> check_maxlength p n msg v ↔ m = msg ∧ exceeds n v.
Proof.
  unfold check_maxlength, exceeds. destruct v as [s|]; cbn.
  - case_bool_decide as Hlen; cbn.
    + rewrite elem_of_nil. split; [done|].
      intros (_ & s' & Hs & Hlt). injection Hs as <-. lia.
    + rewrite list_elem_of_singleton. split; [|by intros [? _]].
      intros ->. split; [done|]. exists s. split; [done|lia].
  - rewrite elem_of_nil. split; [done|].
    intros (_ & s' & Hs & _). discriminate Hs.
Qed.

Lemma check_min_msg n v :
  m ∈ message <$> check_min p n msg v ↔ m = msg ∧ below n v.
Proof.
  unfold check_min, below. destruct v as [z|]; cbn.
  - case_bool_decide as Hle; cbn.
    + rewrite elem_of_nil. split; [done|].
      intros (_ & z' & Hz & Hlt). injection Hz as <-. lia.
    + rewrite list_elem_of_singleton. split; [|by intros [? _]].
      intros ->. split; [done|]. exists z. split; [done|lia].
  - rewrite elem_of_nil. split; [done|].
    intros (_ & z' & Hz & _). discriminate Hz.
Qed.
End Validators.

Lemma check_tags_msg (m : string) (l : list string) :
  m ∈ message <$> check_tags l ↔
  m = "Tag cannot exceed 50 characters" ∧ Exists (λ t, 50 < String.length t)%nat l.
Proof.
  unfold check_tags. rewrite list_elem_of_fmap, Exists_exists. split.
  - intros (e & -> & (errs & He & (i & t & -> & Hi)%elem_of_lookup_imap)%list_elem_of_join).
    assert (Hm : message e ∈ message <$>
              check_maxlength ("tags." +:+ pretty i) 50
                "Tag cannot exceed 50 characters" (Some t))
      by (apply list_elem_of_fmap; eauto).
    apply check_maxlength_msg in Hm as [-> (s & Hs & Hlen)].
    injection Hs as <-.
    split; [done|]. exists t. split; [|done]. by eapply list_elem_of_lookup_2.
  - intros [-> (t & [i Hi]%list_elem_of_lookup_1 & Hlen)].
    assert (Hm : "Tag cannot exceed 50 characters" ∈ message <$>
              check_maxlength ("tags." +:+ pretty i) 50
                "Tag cannot exceed 50 characters" (Some t)).
    { apply check_maxlength_msg. split; [done|]. by exists t. }
    apply list_elem_of_fmap in Hm as (e & -> & He).
    exists e. split; [done|]. apply list_elem_of_join.
    eexists. split; [exact He|]. apply elem_of_lookup_imap. eauto.
Qed.

(** Which messages validation reports, validator by validator. *)
Lemma reports_iff (d : Pdf) (m : string) :
  reports d m ↔
    (m = "PDF name is required" ∧ truthy (name d) = false)
    ∨ (m = "PDF name cannot exceed 255 characters" ∧ exceeds 255 (name d))
    ∨ (m = "Path `original_name` is required." ∧ truthy (original_name d) = false)
    ∨ (m = "PDF UUID is required" ∧ truthy (uuid d) = false)
    ∨ (m = "File size is required" ∧ size d = None)
    ∨ (m = "File size cannot be negative" ∧ below 0 (size d))
    ∨ (m = "Page count cannot be negative" ∧ below 0 (page_count d))
    ∨ (m = "Total chunks cannot be negative" ∧ below 0 (Some (total_chunks d)))
    ∨ (m = "Successful chunks cannot be negative" ∧ below 0 (Some (successful_chunks d)))
    ∨ (m = "Description cannot exceed 500 characters" ∧ exceeds 500 (description d))
    ∨ (m = "Tag cannot exceed 50 characters"
       ∧ Exists (λ t, 50 < String.length t)%nat (tags d)).
Proof.
  unfold reports, validate.
  rewrite !fmap_app, !elem_of_app, !check_required_msg, !check_required_num_msg,
    !check_maxlength_msg, !check_min_msg, check_tags_msg.
  reflexivity.
Qed.

(** Decide [reports d msg] for a literal message: pick the disjunct of
    [reports_iff] whose message it is. *)
Ltac other_message H :=
  exfalso; apply String.eqb_eq in H; vm_compute in H; discriminate H.

Ltac report_cases :=
  rewrite reports_iff; split;
  [ intros H; repeat (destruct H as [H | H]); destruct H as [Hm HP];
    first [exact HP | other_message Hm]
  | intros HP;
    solve [repeat first [ split; [reflexivity | exact HP]
                        | left; split; [reflexivity | exact HP]
                        | right ]] ].

Lemma reports_nonempty (d : Pdf) (m : string) : reports d m → validate d ≠ [].
Proof. unfold reports. intros H E. rewrite E in H. by apply elem_of_nil in H. Qed.

Lemma save_invalid (now : Date) (d : Pdf) :
  validate d ≠ [] → save now d = (d, ValidationError (validate d)).
Proof. unfold save. by destruct (validate d). Qed.

(** With validation on, a save of a document whose [original_name] is unset
    or empty is rejected by the [required] validator of that path; the hook
    is not reached and the document stays as it was. *)
Lemma save_requires_original_name (now : Date) (d : Pdf) :
  truthy (original_name d) = false →
  save now d = (d, ValidationError (validate d))
  ∧ reports d "Path `original_name` is required.".
Proof.
  intros Ho.
  assert (Hr : reports d "Path `original_name` is required.").
  { apply reports_iff. right; right; left. done. }
  split; [|exact Hr]. eapply save_invalid, reports_nonempty, Hr.
Qed.

(** C10. A save of a document whose [original_name] is unset or empty while
    [name] is set does not copy [name] into [original_name]: the [required]
    validator of [original_name] rejects the save before the pre-save hook is
    reached, and the document stays as it was, [original_name] still unset or
    empty. The hook, had it run on that document, would have copied
    [name]. *)
Theorem save_rejects_before_copy (now : Date) (d : Pdf) :
  truthy (original_name d) = false →
  truthy (name d) = true →
  save now d = (d, ValidationError (validate d))
  ∧ reports d "Path `original_name` is required."
  ∧ truthy (original_name (save now d).1) = false
  ∧ original_name (save now d).1 ≠ name d
  ∧ original_name (pre_save now d) = name d.
Proof.
  intros Ho Hn.
  destruct (save_requires_original_name now d Ho) as [Hs Hr].
  split_and!; [exact Hs | exact Hr | by rewrite Hs | |].
  - rewrite Hs. cbn. intros E. rewrite E, Hn in Ho. discriminate Ho.
  - by rewrite pre_save_original_name_eq, Ho, Hn.
Qed.

Lemma save_rejects_before_copy_witness :
  save 7 (set_original_name None (uploaded "A" "a.pdf" 10))
  = (set_original_name None (uploaded "A" "a.pdf" 10),
     ValidationError [mkError "original_name" "Path `original_name` is required."])
  ∧ original_name (save 7 (set_original_name None (uploaded "A" "a.pdf" 10))).1 = None.
Proof.
  destruct (save_rejects_before_copy 7
              (set_original_name None (uploaded "A" "a.pdf" 10)) eq_refl eq_refl)
    as (Hs & _).
  split; [exact Hs | by rewrite Hs].
Defined.

(** C8. Validation reports the bound message of name, description, tags and
    size exactly when that bound is violated (name longer than 255
    characters, description longer than 500, some tag longer than 50, size
    negative), and a save of a document that violates one of them is rejected
    with a ValidationError, the document left as it was. *)
Theorem validate_bounds (d : Pdf) :
  (reports d "PDF name cannot exceed 255 characters" ↔ exceeds 255 (name d))
  ∧ (reports d "Description cannot exceed 500 characters" ↔ exceeds 500 (description d))
  ∧ (reports d "Tag cannot exceed 50 characters" ↔
       Exists (λ t, 50 < String.length t)%nat (tags d))
  ∧ (reports d "File size cannot be negative" ↔ below 0 (size d))
  ∧ (bound_violated d →
       ∀ now, ∃ errors, errors ≠ [] ∧ save now d = (d, ValidationError errors)).
Proof.
  assert (H1 : reports d "PDF name cannot exceed 255 characters" ↔ exceeds 255 (name d))
    by report_cases.
  assert (H2 : reports d "Description cannot exceed 500 characters"
               ↔ exceeds 500 (description d)) by report_cases.
  assert (H3 : reports d "Tag cannot exceed 50 characters"
               ↔ Exists (λ t, 50 < String.length t)%nat (tags d)) by report_cases.
  assert (H4 : reports d "File size cannot be negative" ↔ below 0 (size d))
    by report_cases.
  split_and!; try assumption.
  intros Hb now. exists (validate d).
  assert (Hne : validate d ≠ []).
  { destruct Hb as [H|[H|[H|H]]]; eapply reports_nonempty;
      [apply H1 | apply H2 | apply H3 | apply H4]; exact H. }
  split; [exact Hne | by apply save_invalid].
Qed.

Lemma validate_bounds_witness :
  ∃ errors, errors ≠ [] ∧
    save 0 (set_name (Some (String.concat "" (replicate 256 "a")))
              (uploaded "A" "a.pdf" 10))
    = (set_name (Some (String.concat "" (replicate 256 "a"))) (uploaded "A" "a.pdf" 10),
       ValidationError errors).
Proof.
  apply (validate_bounds
           (set_name (Some (String.concat "" (replicate 256 "a")))
              (uploaded "A" "a.pdf" 10))).
  left. eexists. split; [reflexivity|]. apply Nat.ltb_lt. vm_compute. reflexivity.
Defined.

(** ** Chunk accounting *)


Lemma save_keeps (now : Date) (d : Pdf) :
  uploaded_by (save now d).1 = uploaded_by d
  ∧ is_public (save now d).1 = is_public d
  ∧ shared_with (save now d).1 = shared_with d
  ∧ total_chunks (save now d).1 = total_chunks d
  ∧ successful_chunks (save now d).1 = successful_chunks d.
Proof. unfold save. destruct (validate d); cbn; [hook_cases | done]. Qed.


(** ** Sharing *)

(** C5. Sharing a document with its owner throws ('Cannot share PDF with
    owner') whatever the permission, and leaves the document, hence its grant
    list, as it was. *)
Theorem shareWith_owner_throws (strict : bool) (now : Date) (userId : ObjectId)
    (permission_arg : option Permission) (d : Pdf) :
  userId = uploaded_by d →
  shareWith strict now userId permission_arg d = (d, Threw "Cannot share PDF with owner").
Proof.
  intros ->. unfold shareWith. rewrite bool_decide_eq_true_2; reflexivity.
Qed.

Lemma shareWith_owner_throws_witness :
  shareWith true 5 "A" (Some write) (uploaded "A" "a.pdf" 10)
  = (uploaded "A" "a.pdf" 10, Threw "Cannot share PDF with owner").
Proof.
  apply (shareWith_owner_throws true 5 "A" (Some write) (uploaded "A" "a.pdf" 10)).
  reflexivity.
Defined.

Section Sharing.
Variables (strict : bool) (now : Date) (userId : ObjectId).
Variable permission_arg : option Permission.
Variable d : Pdf.

(** The grant list [shareWith] leaves in memory when the target is not the
    owner. *)
Lemma shareWith_shared_with :
  uploaded_by d ≠ userId →
  shared_with (shareWith strict now userId permission_arg d).1 =
    match list_find (share_matches userId) (shared_with d) with
    | Some (i, share) =>
        <[i := stored strict (mkGrant (user share) (user_id share)
                                      (Some (default read permission_arg)) (Some now))]>
          (shared_with d)
    | None =>
        (shared_with d ++
           [stored strict (mkGrant None (Some userId)
                                   (Some (default read permission_arg)) (Some now))])%list
    end.
Proof.
  intros Hne. unfold shareWith. rewrite bool_decide_eq_false_2 by done.
  destruct (list_find _ _) as [[i share]|];
    match goal with |- context [save now ?x] =>
      pose proof (save_keeps now x) as (_ & _ & Hs & _);
      destruct (save now x) as [d' r]
    end; cbn in *; exact Hs.
Qed.

(** [shareWith] never touches the owner, the public flag or the chunk
    counters. *)
Lemma shareWith_keeps :
  uploaded_by (shareWith strict now userId permission_arg d).1 = uploaded_by d
  ∧ is_public (shareWith strict now userId permission_arg d).1 = is_public d
  ∧ total_chunks (shareWith strict now userId permission_arg d).1 = total_chunks d
  ∧ successful_chunks (shareWith strict now userId permission_arg d).1
    = successful_chunks d.
Proof.
  unfold shareWith. case_bool_decide; [done|].
  destruct (list_find _ _) as [[i share]|];
    match goal with |- context [save now ?x] =>
      pose proof (save_keeps now x) as (Ho & Hp & _ & Ht & Hs);
      destruct (save now x) as [d' r]
    end; cbn in *; done.
Qed.


(** When [removeSharing] throws, the document is left as it was. *)
Lemma removeSharing_throws msg d' :
  removeSharing now userId d = (d', Threw msg) → d' = d.
Proof.
  unfold removeSharing. case_bool_decide; [by intros [= <- _]|].
  destruct (list_find _ _) as [[i share]|]; [|by intros [= <- _]].
  destruct (save now _); discriminate.
Qed.

(** [getUserPermission] without its redundant length test: on an empty
    array [find] finds nothing. *)
Lemma getUserPermission_cases :
  getUserPermission userId d =
    if bool_decide (userId = uploaded_by d) then owner
    else if is_public d then granted read
    else match list_find (share_matches userId) (shared_with d) with
         | Some (_, userShare) => granted (default read (permission userShare))
         | None => none
         end.
Proof.
  unfold getUserPermission. cbn zeta.
  destruct (bool_decide (userId = uploaded_by d)); [done|].
  destruct (is_public d); [done|].
  case_bool_decide as Hlen; [done|].
  destruct (shared_with d); [done | cbn in Hlen; lia].
Qed.

(** No entry shaped as the schema declares it is ever matched by the
    callbacks of the sharing methods. *)
Lemma list_find_declared :
  Forall (λ g, user_id g = None) (shared_with d) →
  list_find (share_matches userId) (shared_with d) = None.
Proof.
  intros H. apply list_find_None. eapply Forall_impl; [exact H|].
  unfold share_matches. intros g -> [=].
Qed.
End Sharing.



(** ** Access resolution and listing *)

(** The documents [findByUser] returns: those of the collection that match
    the filter. *)
Lemma findByUser_spec (userId : ObjectId) (collection : list Pdf) (d : Pdf) :
  d ∈ findByUser userId collection ↔ d ∈ collection ∧ visible_to userId d.
Proof. unfold findByUser. rewrite list_elem_of_filter. tauto. Qed.

(** C1. On a private document whose grants are shaped as the schema
    declares them ([user], [permission]), [getUserPermission] answers 'none'
    to a user who is not the owner and whom a grant names: its callback reads
    [user_id], which no such entry has. [findByUser], which reads [user],
    does see the grant and lists the document for that user. *)
Theorem getUserPermission_declared_grant (userId : ObjectId) (p : Permission) (d : Pdf) :
  userId ≠ uploaded_by d →
  is_public d = false →
  Forall (λ g, user_id g = None) (shared_with d) →
  schema_grant userId p ∈ shared_with d →
  getUserPermission userId d = none
  ∧ hasAccess userId d = false
  ∧ findByUser userId [d] = [d].
Proof.
  intros Hne Hpub Hdecl Hin.
  assert (Hnone : getUserPermission userId d = none).
  { rewrite getUserPermission_cases, bool_decide_eq_false_2, Hpub by done.
    by rewrite list_find_declared. }
  assert (Hex : Exists (λ entry, user entry = Some userId) (shared_with d)).
  { apply Exists_exists. by exists (schema_grant userId p). }
  split_and!.
  - exact Hnone.
  - by rewrite hasAccess_unfold, Hnone.
  - unfold findByUser. apply filter_singleton_True; [exact []|].
    right; right. exact Hex.
Qed.

Lemma getUserPermission_declared_grant_witness :
  getUserPermission "U"
    (set_shared_with [schema_grant "U" write] (uploaded "A" "a.pdf" 10)) = none.
Proof.
  apply (getUserPermission_declared_grant "U" write
           (set_shared_with [schema_grant "U" write] (uploaded "A" "a.pdf" 10))).
  - discriminate.
  - reflexivity.
  - repeat constructor.
  - apply list_elem_of_singleton. reflexivity.
Defined.

(** C6. [removeSharing] throws 'PDF is not shared with this user' on a
    document whose grants are shaped as the schema declares them, although a
    grant names the user; the document is left as it was and the grant is not
    removed. *)
Theorem removeSharing_declared_grant (now : Date) (userId : ObjectId)
    (p : Permission) (d : Pdf) :
  Forall (λ g, user_id g = None) (shared_with d) →
  schema_grant userId p ∈ shared_with d →
  removeSharing now userId d = (d, Threw "PDF is not shared with this user")
  ∧ schema_grant userId p ∈ grants_of userId (removeSharing now userId d).1.
Proof.
  intros Hdecl Hin.
  assert (Hr : removeSharing now userId d
               = (d, Threw "PDF is not shared with this user")).
  { unfold removeSharing. rewrite bool_decide_eq_false_2.
    - by rewrite list_find_declared.
    - destruct (shared_with d); [by apply elem_of_nil in Hin | done]. }
  split; [exact Hr|]. rewrite Hr. cbn.
  apply list_elem_of_filter. split; [by left | exact Hin].
Qed.

Lemma removeSharing_declared_grant_witness :
  removeSharing 5 "U"
    (set_shared_with [schema_grant "U" read] (uploaded "A" "a.pdf" 10))
  = (set_shared_with [schema_grant "U" read] (uploaded "A" "a.pdf" 10),
     Threw "PDF is not shared with this user").
Proof.
  apply (removeSharing_declared_grant 5 "U" read
           (set_shared_with [schema_grant "U" read] (uploaded "A" "a.pdf" 10))).
  - repeat constructor.
  - apply list_elem_of_singleton. reflexivity.
Defined.

(** C7. A document that [shareWith] has just shared with a user, who is not
    its owner, on a private document, is not returned by [findByUser] for that
    user: [shareWith] records the user under [user_id], the query matches
    [shared_with.user]. *)
Theorem findByUser_misses_shareWith (strict : bool) (now : Date) (userId : ObjectId)
    (permission_arg : option Permission) (d : Pdf) :
  uploaded_by d ≠ userId →
  is_public d = false →
  Forall (λ entry, user entry ≠ Some userId) (shared_with d) →
  findByUser userId [(shareWith strict now userId permission_arg d).1] = [].
Proof.
  intros Hne Hpub Hno.
  unfold findByUser. apply filter_singleton_False; [exact []|].
  destruct (shareWith_keeps strict now userId permission_arg d) as (Ho & Hp & _).
  intros [H|[H|H]].
  - congruence.
  - congruence.
  - revert H. apply Forall_not_Exists.
    rewrite shareWith_shared_with by done.
    destruct (list_find _ _) as [[i share]|] eqn:Hfind.
    + apply list_find_Some in Hfind as (Hi & _ & _).
      apply Forall_insert; [exact Hno|].
      pose proof (Forall_lookup_1 _ _ _ _ Hno Hi) as Hu.
      destruct strict; exact Hu.
    + apply Forall_app. split; [exact Hno|].
      apply Forall_singleton. destruct strict; discriminate.
Qed.

Lemma findByUser_misses_shareWith_witness :
  (shareWith true 5 "U" (Some read) (uploaded "A" "a.pdf" 10)).2 = Returned Saved
  ∧ findByUser "U" [(shareWith true 5 "U" (Some read) (uploaded "A" "a.pdf" 10)).1] = [].
Proof.
  split; [reflexivity|].
  apply (findByUser_misses_shareWith true 5 "U" (Some read) (uploaded "A" "a.pdf" 10)).
  - discriminate.
  - reflexivity.
  - constructor.
Defined.

(** C2. Starting from a document with one grant for U, shaped as the schema
    declares it, [shareWith(U, 'write')] followed by [shareWith(U, 'read')]
    does not leave exactly one grant for U with permission read: neither call
    finds the grant the schema declares, and an entry is appended beside it.
    On a document with no
    grant at all and [strict] on, the two calls leave two entries, none of
    which names U. *)
Theorem shareWith_twice_appends (strict : bool) (t1 t2 : Date) :
  let d0 := set_shared_with [schema_grant "U" write] (uploaded "A" "a.pdf" 10) in
  let d1 := (shareWith strict t1 "U" (Some write) d0).1 in
  let d2 := (shareWith strict t2 "U" (Some read) d1).1 in
  let e1 := (shareWith true t1 "U" (Some write) (uploaded "A" "a.pdf" 10)).1 in
  let e2 := (shareWith true t2 "U" (Some read) e1).1 in
  validate d0 = []
  ∧ grants_of "U" d0 = [schema_grant "U" write]
  ∧ (shareWith strict t2 "U" (Some read) d1).2 = Returned Saved
  ∧ length (shared_with d2) = (if strict then 3 else 2)%nat
  ∧ (¬ ∃ g, grants_of "U" d2 = [g] ∧ permission g = Some read)
  ∧ shared_with e2 = [mkGrant None None (Some write) None;
                      mkGrant None None (Some read) None]
  ∧ grants_of "U" e2 = [].
Proof.
  destruct strict; cbn zeta; split_and!; try reflexivity.
  - intros (g & Hg & Hp). vm_compute in Hg. injection Hg as <-. discriminate Hp.
  - intros (g & Hg & Hp). vm_compute in Hg. discriminate Hg.
Qed.

(** ** What [shareWith] and the readers agree on, by the [strict] option *)

(** With [strict] on, every entry [shareWith] leaves in the array is shaped
    as the schema declares it. *)
Lemma shareWith_strict_declared (now : Date) (userId : ObjectId)
    (permission_arg : option Permission) (d : Pdf) :
  uploaded_by d ≠ userId →
  Forall (λ g, user_id g = None) (shared_with d) →
  Forall (λ g, user_id g = None)
    (shared_with (shareWith true now userId permission_arg d).1).
Proof.
  intros Hne Hdecl. rewrite shareWith_shared_with by done.
  rewrite list_find_declared by done.
  apply Forall_app. split; [exact Hdecl|]. by apply Forall_singleton.
Qed.

(** So with [strict] on the user who has just been given a grant resolves to
    'none'. *)
Lemma getUserPermission_after_shareWith_strict (now : Date) (userId : ObjectId)
    (permission_arg : option Permission) (d : Pdf) :
  uploaded_by d ≠ userId →
  is_public d = false →
  Forall (λ g, user_id g = None) (shared_with d) →
  getUserPermission userId (shareWith true now userId permission_arg d).1 = none.
Proof.
  intros Hne Hpub Hdecl.
  destruct (shareWith_keeps true now userId permission_arg d) as (Ho & Hp & _).
  rewrite getUserPermission_cases, Ho, Hp, Hpub, bool_decide_eq_false_2 by done.
  by rewrite list_find_declared by by apply shareWith_strict_declared.
Qed.

(** With [strict] off the entry keeps [user_id], and the same user resolves
    to the permission just given. *)
Lemma getUserPermission_after_shareWith_loose (now : Date) (userId : ObjectId)
    (permission_arg : option Permission) (d : Pdf) :
  uploaded_by d ≠ userId →
  is_public d = false →
  getUserPermission userId (shareWith false now userId permission_arg d).1
  = granted (default read permission_arg).
Proof.
  intros Hne Hpub.
  destruct (shareWith_keeps false now userId permission_arg d) as (Ho & Hp & _).
  rewrite getUserPermission_cases, Ho, Hp, Hpub, bool_decide_eq_false_2 by done.
  rewrite shareWith_shared_with by done.
  destruct (list_find (share_matches userId) (shared_with d))
    as [[i share]|] eqn:Hfind.
  - apply list_find_Some in Hfind as (Hi & Hm & Hleast).
    match goal with |- context [<[i := ?g]> _] => set (g' := g) end.
    assert (Hnew : list_find (share_matches userId) (<[i := g']> (shared_with d))
                   = Some (i, g')).
    { apply list_find_Some. split_and!.
      - apply list_lookup_insert_eq. by eapply lookup_lt_Some.
      - exact Hm.
      - intros j y Hj Hlt. rewrite list_lookup_insert_ne in Hj by lia. eauto. }
    by rewrite Hnew.
  - rewrite list_find_app_r by done. cbn.
    rewrite decide_True by reflexivity. reflexivity.
Qed.

(** When the callback does find an entry, [removeSharing] removes that one
    entry and saves. *)
Lemma removeSharing_found (now : Date) (userId : ObjectId) (d : Pdf) i share :
  list_find (share_matches userId) (shared_with d) = Some (i, share) →
  shared_with (removeSharing now userId d).1 = delete i (shared_with d)
  ∧ ∃ r, (removeSharing now userId d).2 = Returned r.
Proof.
  intros Hfind. unfold removeSharing.
  rewrite bool_decide_eq_false_2.
  - rewrite Hfind.
    match goal with |- context [save now ?x] =>
      pose proof (save_keeps now x) as (_ & _ & Hs & _);
      destruct (save now x) as [d' r]
    end; cbn in *. eauto.
  - apply list_find_Some in Hfind as (Hi & _).
    apply lookup_lt_Some in Hi. lia.
Qed.

(** * Further properties of the model *)

(** ** Validation and saving *)

Lemma validate_nil_reports (d : Pdf) : validate d = [] ↔ ∀ m, ¬ reports d m.
Proof.
  unfold reports. split.
  - intros -> m H. by apply elem_of_nil in H.
  - intros H. destruct (validate d) as [|e l]; [done|].
    exfalso. apply (H (message e)). cbn. left.
Qed.

Lemma validate_nil_well_formed (d : Pdf) : validate d = [] ↔ well_formed d.
Proof.
  rewrite validate_nil_reports. unfold well_formed. split.
  - intros Hno.
    assert (Hr : ∀ m, ¬ reports d m) by exact Hno.
    setoid_rewrite reports_iff in Hr.
    split_and!.
    + destruct (truthy (name d)) eqn:E; [done|]. exfalso. eapply Hr. eauto.
    + intros H. eapply Hr. eauto.
    + destruct (truthy (original_name d)) eqn:E; [done|].
      exfalso. eapply Hr. eauto 6.
    + destruct (truthy (uuid d)) eqn:E; [done|]. exfalso. eapply Hr. eauto 6.
    + destruct (size d) as [z|] eqn:E.
      * exists z. split; [done|].
        destruct (decide (0 ≤ z)%Z) as [|Hn]; [done|].
        exfalso. eapply Hr. do 5 right. left. split; [done|].
        exists z. split; [done|lia].
      * exfalso. eapply Hr. eauto 8.
    + intros H. eapply Hr. eauto 10.
    + destruct (decide (0 ≤ total_chunks d)%Z) as [|Hn]; [done|].
      exfalso. eapply Hr. do 7 right. left. split; [done|].
      eexists. split; [done|lia].
    + destruct (decide (0 ≤ successful_chunks d)%Z) as [|Hn]; [done|].
      exfalso. eapply Hr. do 8 right. left. split; [done|].
      eexists. split; [done|lia].
    + intros H. eapply Hr. do 9 right. left. eauto.
    + apply Forall_forall. intros t Ht.
      destruct (decide (String.length t ≤ 50)%nat) as [|Hn]; [done|].
      exfalso. eapply Hr. do 10 right. split; [done|].
      apply Exists_exists. exists t. split; [done|lia].
  - intros (Hn & Hn' & Ho & Hu & (z & Hz & Hz') & Hp & Ht & Hs & Hd & Htags) m.
    rewrite reports_iff.
    intros [[_ H]|[[_ H]|[[_ H]|[[_ H]|[[_ H]|[[_ H]|[[_ H]|[[_ H]|[[_ H]|[[_ H]|[_ H]]]]]]]]]]];
      try congruence; try done.
    + destruct H as (z' & Hz'' & Hlt). rewrite Hz in Hz''. injection Hz'' as <-. lia.
    + destruct H as (z' & Hz'' & Hlt). injection Hz'' as <-. lia.
    + destruct H as (z' & Hz'' & Hlt). injection Hz'' as <-. lia.
    + apply Exists_exists in H as (t & Hin & Hlt).
      eapply Forall_forall in Htags; [|exact Hin]. cbn in Htags. lia.
Qed.

(** X1. The validators that the schema declares on name, original_name,
    uuid, size, page_count, the two chunk counters, description and tags
    report nothing exactly when: name, original_name and uuid are non-empty,
    name has at most 255 characters, size is present and not negative,
    page_count is absent or not negative, both chunk counters are not
    negative, description is absent or has at most 500 characters, and every
    tag has at most 50 characters. A save succeeds only on such a
    document. *)
Theorem validate_nil_iff (now : Date) (d : Pdf) :
  (validate d = [] ↔ well_formed d)
  ∧ ((save now d).2 = Saved → well_formed d).
Proof.
  pose proof (validate_nil_well_formed d) as Hv.
  split; [exact Hv|]. rewrite <- Hv. unfold save.
  destruct (validate d); cbn; intros; done.
Qed.

Lemma validate_nil_iff_witness :
  well_formed (uploaded "A" "a.pdf" 10).
Proof.
  apply (validate_nil_iff 0 (uploaded "A" "a.pdf" 10)). reflexivity.
Defined.

(** ** The pre-save hook *)

Lemma pre_save_same_but (now : Date) (d : Pdf) :
  same_but_hook_paths d (pre_save now d).
Proof. unfold same_but_hook_paths. hook_cases. Qed.

(** Two documents that agree on every path are the same document. *)
Lemma Pdf_ext (d d' : Pdf) :
  same_but_hook_paths d d' →
  indexed_at d' = indexed_at d →
  indexing_status d' = indexing_status d →
  original_name d' = original_name d →
  d' = d.
Proof.
  destruct d, d'. unfold same_but_hook_paths. cbn.
  intros (? & ? & ? & ? & ? & ? & ? & ? & ? & ? & ? & ? & ? & ? & ? & ?) ? ? ?.
  by subst.
Qed.

(** On a document the hook has run on, both guards of the hook are off. *)
Lemma pre_save_guards_off (now : Date) (d : Pdf) :
  isModified "is_indexed" (pre_save now d) && is_indexed (pre_save now d)
    && bool_decide (indexed_at (pre_save now d) = None) = false
  ∧ negb (truthy (original_name (pre_save now d))) && truthy (name (pre_save now d))
    = false.
Proof.
  destruct (pre_save_same_but now d)
    as (Hn & _ & _ & _ & _ & Hi & _ & _ & _ & _ & _ & _ & _ & _ & _ & Hm).
  unfold isModified. rewrite Hm, Hi, Hn, pre_save_indexed_at, pre_save_original_name_eq.
  fold (isModified "is_indexed" d). split.
  - destruct (isModified "is_indexed" d && is_indexed d
              && bool_decide (indexed_at d = None)) eqn:E; [|exact E].
    rewrite bool_decide_eq_false_2 by done. apply andb_false_r.
  - destruct (truthy (original_name d)) eqn:Ho; cbn.
    + by rewrite Ho.
    + destruct (truthy (name d)) eqn:Hn'; cbn; [by rewrite Hn'|by rewrite Ho].
Qed.

Lemma pre_save_fixed (t1 t2 : Date) (d : Pdf) :
  pre_save t2 (pre_save t1 d) = pre_save t1 d.
Proof.
  destruct (pre_save_guards_off t1 d) as [Hg Ho].
  apply Pdf_ext.
  - apply pre_save_same_but.
  - by rewrite pre_save_indexed_at, Hg.
  - by rewrite pre_save_indexing_status, Hg.
  - by rewrite pre_save_original_name_eq, Ho.
Qed.

(** X2. The hook assigns [indexed_at], [indexing_status] and
    [original_name] and no other path of the schema: name, uuid, size, MIME
    type, page count, the indexed flag, both chunk counters, the owner, the
    error message, description, tags, collection name, the public flag and
    the grant list hold after the hook what they held before. *)
Theorem pre_save_frame (now : Date) (d : Pdf) :
  same_values_but_hook_paths d (pre_save now d).
Proof.
  destruct (pre_save_same_but now d)
    as (?&?&?&?&?&?&?&?&?&?&?&?&?&?&?&_).
  unfold same_values_but_hook_paths. split_and!; assumption.
Qed.

(** X3. When the hook changes [indexed_at] or [indexing_status], the
    document is indexed, had no [indexed_at], and ends with [indexed_at] at
    the current time and status completed: the hook never moves a document to
    another status, and never stamps a document that is not indexed. *)
Theorem pre_save_changes_only_to_completed (now : Date) (d : Pdf) :
  indexed_at (pre_save now d) ≠ indexed_at d
  ∨ indexing_status (pre_save now d) ≠ indexing_status d →
  is_indexed (pre_save now d) = true
  ∧ indexed_at d = None
  ∧ indexed_at (pre_save now d) = Some now
  ∧ indexing_status (pre_save now d) = completed.
Proof.
  rewrite pre_save_indexed_at, pre_save_indexing_status.
  destruct (pre_save_same_but now d) as (_ & _ & _ & _ & _ & -> & _).
  destruct (isModified "is_indexed" d); cbn; [|intros [?|?]; done].
  destruct (is_indexed d); cbn; [|intros [?|?]; done].
  case_bool_decide; [done|]. intros [?|?]; done.
Qed.

Lemma pre_save_changes_only_to_completed_witness :
  indexing_status (pre_save 9 first_indexed) = completed.
Proof.
  apply (pre_save_changes_only_to_completed 9 first_indexed).
  right. discriminate.
Defined.

(** X4. The hook is idempotent: run again, at whatever later time, on its
    own result, it changes nothing. *)
Theorem pre_save_idempotent (t1 t2 : Date) (d : Pdf) :
  pre_save t2 (pre_save t1 d) = pre_save t1 d.
Proof. apply pre_save_fixed. Qed.

(** X5. A save that succeeds is stable: the document it leaves passes
    validation, and saving it again, at whatever time, succeeds and changes
    nothing. *)
Theorem save_twice (t1 t2 : Date) (d d' : Pdf) :
  save t1 d = (d', Saved) →
  validate d' = [] ∧ save t2 d' = (d', Saved).
Proof.
  intros [Hv ->]%save_Saved.
  assert (Ho : truthy (original_name d) = true).
  { by apply validate_nil_well_formed in Hv as (_ & _ & ? & _). }
  assert (Hv' : validate (set_modifiedPaths [] (pre_save t1 d)) = []).
  { rewrite <- Hv. unfold validate. cbn.
    destruct (pre_save_same_but t1 d)
      as (-> & -> & -> & _ & -> & _ & -> & -> & _ & _ & -> & -> & _).
    rewrite pre_save_original_name_eq, Ho. reflexivity. }
  split; [exact Hv'|]. unfold save. rewrite Hv'. f_equal.
  destruct (pre_save_guards_off t1 d) as [_ Hg].
  apply Pdf_ext.
  - unfold same_but_hook_paths.
    destruct (pre_save_same_but t2 (set_modifiedPaths [] (pre_save t1 d)))
      as (?&?&?&?&?&?&?&?&?&?&?&?&?&?&?&?).
    cbn in *. split_and!; done.
  - cbn. by rewrite pre_save_indexed_at.
  - cbn. by rewrite pre_save_indexing_status.
  - cbn. rewrite pre_save_original_name_eq. cbn. by rewrite Hg.
Qed.

Lemma save_twice_witness :
  save 9 (save 5 first_indexed).1 = ((save 5 first_indexed).1, Saved).
Proof.
  apply (save_twice 5 9 first_indexed (save 5 first_indexed).1).
  reflexivity.
Defined.

(** ** Access resolution *)

Section ListFind.
Context {A : Type} (P : A → Prop) `{!∀ x, Decision (P x)}.

(** Replacing an entry the predicate rejects by another one it rejects does
    not change what [find] finds. *)
Lemma list_find_insert_other (l : list A) (i : nat) (x : A) :
  ¬ P x → (∀ y, l !! i = Some y → ¬ P y) →
  list_find P (<[i:=x]> l) = list_find P l.
Proof.
  intros Hx. revert i. induction l as [|y l IH]; intros i Hy; [done|].
  destruct i as [|i]; csimpl.
  - rewrite decide_False by exact Hx.
    rewrite decide_False by (apply Hy; reflexivity). reflexivity.
  - case_decide; [reflexivity|]. rewrite IH; [reflexivity|].
    intros z Hz. apply Hy. exact Hz.
Qed.

(** Appending an entry the predicate rejects does not change it either. *)
Lemma list_find_app_other (l : list A) (x : A) :
  ¬ P x → list_find P (l ++ [x]) = list_find P l.
Proof.
  intros Hx. induction l as [|y l IH]; csimpl.
  - by rewrite decide_False.
  - case_decide; [reflexivity|]. by rewrite IH.
Qed.

(** Removing an entry the predicate rejects does not change which entry
    [find] returns. *)
Lemma list_find_delete_other (l : list A) (i : nat) :
  (∀ y, l !! i = Some y → ¬ P y) →
  snd <$> list_find P (delete i l) = snd <$> list_find P l.
Proof.
  revert i. induction l as [|y l IH]; intros i Hy; [done|].
  destruct i as [|i]; csimpl.
  - rewrite decide_False by (apply Hy; reflexivity).
    rewrite <- option_fmap_compose. by destruct (list_find P l) as [[]|].
  - case_decide; [reflexivity|].
    rewrite <- !option_fmap_compose.
    specialize (IH i (λ z Hz, Hy z Hz)).
    destruct (list_find P (delete i l)) as [[]|], (list_find P l) as [[]|];
      cbn in *; congruence.
Qed.
End ListFind.

(** [getUserPermission] depends on the document through its owner, its
    public flag and the entry its callback finds. *)
Lemma getUserPermission_ext (userId : ObjectId) (d d' : Pdf) :
  uploaded_by d' = uploaded_by d →
  is_public d' = is_public d →
  snd <$> list_find (share_matches userId) (shared_with d')
  = snd <$> list_find (share_matches userId) (shared_with d) →
  getUserPermission userId d' = getUserPermission userId d.
Proof.
  intros Ho Hp Hf. rewrite !getUserPermission_cases, Ho, Hp.
  destruct (list_find _ (shared_with d')) as [[]|],
           (list_find _ (shared_with d)) as [[]|]; by simplify_eq/=.
Qed.

Lemma removeSharing_keeps_owner (now : Date) (userId : ObjectId) (d : Pdf) :
  uploaded_by (removeSharing now userId d).1 = uploaded_by d
  ∧ is_public (removeSharing now userId d).1 = is_public d.
Proof.
  unfold removeSharing. case_bool_decide; [done|].
  destruct (list_find _ _) as [[i share]|]; [|done].
  match goal with |- context [save now ?x] =>
    pose proof (save_keeps now x) as (Ho & Hp & _);
    destruct (save now x) as [d' r]
  end; cbn in *; done.
Qed.

Lemma removeSharing_shared_with (now : Date) (userId : ObjectId) (d : Pdf) :
  shared_with (removeSharing now userId d).1 =
    match list_find (share_matches userId) (shared_with d) with
    | Some (i, _) => delete i (shared_with d)
    | None => shared_with d
    end.
Proof.
  unfold removeSharing. case_bool_decide as Hlen; cbn.
  - destruct (shared_with d); [done | discriminate Hlen].
  - destruct (list_find _ _) as [[i share]|]; [|done].
    match goal with |- context [save now ?x] =>
      pose proof (save_keeps now x) as (_ & _ & Hs & _);
      destruct (save now x) as [d' r]
    end; cbn in *; done.
Qed.

(** X6. [getUserPermission] answers 'owner' to the owner, whatever the
    public flag and the grant list hold, and to nobody else. *)
Theorem getUserPermission_owner_iff (userId : ObjectId) (d : Pdf) :
  getUserPermission userId d = owner ↔ userId = uploaded_by d.
Proof.
  rewrite getUserPermission_cases. case_bool_decide as Ho; [done|].
  split; [|done].
  destruct (is_public d); [done|].
  by destruct (list_find _ _) as [[]|].
Qed.

(** X7. On a public document every user other than the owner resolves to
    'read', also one whose entry in the grant list says write: the public
    flag is looked at before the grant list. *)
Theorem getUserPermission_public (userId : ObjectId) (d : Pdf) :
  is_public d = true →
  userId ≠ uploaded_by d →
  getUserPermission userId d = granted read.
Proof.
  intros Hp Hne.
  by rewrite getUserPermission_cases, bool_decide_eq_false_2, Hp.
Qed.

Lemma getUserPermission_public_witness :
  getUserPermission "U"
    (mkPdf (Some "a.pdf") (Some "a.pdf") (Some "uuid-1") (Some 10) "application/pdf"
       None false pending None 0 0 "A" None None [] "RAG_TEXT_EMBEDDING"
       true [mkGrant None (Some "U") (Some write) (Some 5)] [])
  = granted read.
Proof.
  apply (getUserPermission_public "U"); [reflexivity | discriminate].
Defined.

(** X8. [hasAccess] refuses a user exactly when the user is not the owner,
    the document is not public, and no entry of the grant list carries the
    user under [user_id]. *)
Theorem hasAccess_false_iff (userId : ObjectId) (d : Pdf) :
  hasAccess userId d = false ↔
    userId ≠ uploaded_by d
    ∧ is_public d = false
    ∧ Forall (λ share, user_id share ≠ Some userId) (shared_with d).
Proof.
  rewrite hasAccess_unfold, negb_false_iff, bool_decide_eq_true,
    getUserPermission_cases.
  case_bool_decide as Ho; [split; [done | by intros [? _]]|].
  destruct (is_public d); [split; [done | by intros (_ & ? & _)]|].
  destruct (list_find _ _) as [[i g]|] eqn:Hf.
  - split; [done|]. intros (_ & _ & Hall).
    apply list_find_Some in Hf as (Hi & Hm & _).
    exfalso. by apply (Forall_lookup_1 _ _ _ _ Hall Hi).
  - split; [|done]. intros _. split_and!; [done..|].
    by apply list_find_None in Hf.
Qed.

(** X9. 'write' is only ever answered from the grant list: the user is not
    the owner, the document is not public, and the first entry that carries
    the user under [user_id] has permission write. *)
Theorem getUserPermission_write (userId : ObjectId) (d : Pdf) :
  getUserPermission userId d = granted write →
  userId ≠ uploaded_by d
  ∧ is_public d = false
  ∧ ∃ (i : nat) share, shared_with d !! i = Some share
      ∧ user_id share = Some userId
      ∧ permission share = Some write
      ∧ ∀ (j : nat) other, shared_with d !! j = Some other → (j < i)%nat →
          user_id other ≠ Some userId.
Proof.
  rewrite getUserPermission_cases. case_bool_decide as Ho; [done|].
  destruct (is_public d); [done|].
  destruct (list_find _ _) as [[i g]|] eqn:Hf; [|done].
  intros Hw. apply list_find_Some in Hf as (Hi & Hm & Hleast).
  split_and!; [done..|]. exists i, g. split_and!; [done..| |exact Hleast].
  destruct (permission g) as [[]|]; cbn in Hw; congruence.
Qed.

Lemma getUserPermission_write_witness :
  ∃ (i : nat) share,
    [mkGrant None (Some "V") (Some read) None;
     mkGrant None (Some "U") (Some write) None] !! i = Some share
    ∧ user_id share = Some "U" ∧ permission share = Some write.
Proof.
  destruct (getUserPermission_write "U"
              (set_shared_with [mkGrant None (Some "V") (Some read) None;
                                mkGrant None (Some "U") (Some write) None]
                 (uploaded "A" "a.pdf" 10)) eq_refl)
    as (_ & _ & i & share & H1 & H2 & H3 & _).
  exists i, share. split_and!; assumption.
Defined.

(** X10. Sharing a document with one user never changes what another user
    resolves to, whether the call appends an entry, updates one, or throws. *)
Theorem shareWith_other_user (strict : bool) (now : Date) (userId other : ObjectId)
    (permission_arg : option Permission) (d : Pdf) :
  other ≠ userId →
  getUserPermission other (shareWith strict now userId permission_arg d).1
  = getUserPermission other d.
Proof.
  intros Hne.
  destruct (shareWith_keeps strict now userId permission_arg d) as (Ho & Hp & _).
  apply getUserPermission_ext; [done..|]. f_equal.
  destruct (decide (uploaded_by d = userId)) as [Hown|Hown].
  - unfold shareWith. by rewrite bool_decide_eq_true_2.
  - rewrite shareWith_shared_with by done.
    destruct (list_find (share_matches userId) _) as [[i share]|] eqn:Hf.
    + apply list_find_Some in Hf as (Hi & Hm & _).
      apply list_find_insert_other.
      * unfold share_matches in *. destruct strict; cbn; congruence.
      * intros y Hy. unfold share_matches in *. congruence.
    + apply list_find_app_other.
      unfold share_matches. destruct strict; cbn; congruence.
Qed.

Lemma shareWith_other_user_witness :
  getUserPermission "V"
    (shareWith false 5 "U" (Some write)
       (set_shared_with [mkGrant None (Some "V") (Some read) None]
          (uploaded "A" "a.pdf" 10))).1
  = granted read.
Proof.
  rewrite (shareWith_other_user false 5 "U" "V" (Some write)); [reflexivity|].
  discriminate.
Defined.

(** X11. Removing one user's grant never changes what another user resolves
    to, whether the call removes an entry or throws. *)
Theorem removeSharing_other_user (now : Date) (userId other : ObjectId) (d : Pdf) :
  other ≠ userId →
  getUserPermission other (removeSharing now userId d).1
  = getUserPermission other d.
Proof.
  intros Hne.
  destruct (removeSharing_keeps_owner now userId d) as (Ho & Hp).
  apply getUserPermission_ext; [done..|].
  rewrite removeSharing_shared_with.
  destruct (list_find (share_matches userId) _) as [[i share]|] eqn:Hf; [|done].
  apply list_find_Some in Hf as (Hi & Hm & _).
  apply list_find_delete_other.
  intros y Hy. unfold share_matches in *. congruence.
Qed.

Lemma removeSharing_other_user_witness :
  getUserPermission "V"
    (removeSharing 5 "U"
       (set_shared_with [mkGrant None (Some "U") (Some write) None;
                         mkGrant None (Some "V") (Some read) None]
          (uploaded "A" "a.pdf" 10))).1
  = granted read.
Proof.
  rewrite (removeSharing_other_user 5 "U" "V"); [reflexivity|].
  discriminate.
Defined.

(** ** How the sharing methods compose *)

Section ListFindMatch.
Context {A : Type} (P : A → Prop) `{!∀ x, Decision (P x)}.

(** Overwriting the entry [find] returns by another matching entry: [find]
    returns the new one, at the same index. *)
Lemma list_find_insert_match (l : list A) (i : nat) (x x' : A) :
  list_find P l = Some (i, x) → P x' →
  list_find P (<[i:=x']> l) = Some (i, x').
Proof.
  intros (Hi & _ & Hleast)%list_find_Some Hx'.
  apply list_find_Some. split_and!.
  - apply list_lookup_insert_eq. by eapply lookup_lt_Some.
  - exact Hx'.
  - intros j y Hj Hlt. rewrite list_lookup_insert_ne in Hj by lia. eauto.
Qed.

(** Appending a matching entry when there was none: [find] returns it. *)
Lemma list_find_app_match (l : list A) (x : A) :
  list_find P l = None → P x →
  list_find P (l ++ [x]) = Some (length l, x).
Proof.
  intros Hnone Hx. rewrite list_find_app_r by done. cbn.
  by rewrite decide_True.
Qed.
End ListFindMatch.

(** X12. With [strict] off, sharing with a user who has no entry and then
    removing that user's grant gives back the grant list exactly as it was;
    neither call throws. *)
Theorem shareWith_removeSharing (t1 t2 : Date) (userId : ObjectId)
    (permission_arg : option Permission) (d : Pdf) :
  uploaded_by d ≠ userId →
  Forall (λ share, user_id share ≠ Some userId) (shared_with d) →
  let d1 := (shareWith false t1 userId permission_arg d).1 in
  shared_with (removeSharing t2 userId d1).1 = shared_with d
  ∧ (∃ r, (shareWith false t1 userId permission_arg d).2 = Returned r)
  ∧ (∃ r, (removeSharing t2 userId d1).2 = Returned r).
Proof.
  intros Hne Hall d1.
  assert (Hnone : list_find (share_matches userId) (shared_with d) = None)
    by by apply list_find_None.
  assert (Hl : shared_with d1 =
               (shared_with d ++
                  [mkGrant None (Some userId)
                           (Some (default read permission_arg)) (Some t1)])%list).
  { unfold d1. by rewrite shareWith_shared_with, Hnone by done. }
  assert (Hf : list_find (share_matches userId) (shared_with d1)
               = Some (length (shared_with d),
                       mkGrant None (Some userId)
                               (Some (default read permission_arg)) (Some t1))).
  { rewrite Hl. by apply list_find_app_match. }
  destruct (removeSharing_found t2 userId d1 _ _ Hf) as [Hs Hr].
  split_and!.
  - rewrite Hs, Hl, delete_middle. apply app_nil_r.
  - unfold shareWith. rewrite bool_decide_eq_false_2 by done.
    destruct (save t1 _) as [d' r]. by exists r.
  - exact Hr.
Qed.

Lemma shareWith_removeSharing_witness :
  shared_with
    (removeSharing 6 "U" (shareWith false 5 "U" (Some write)
                            (uploaded "A" "a.pdf" 10)).1).1 = [].
Proof.
  apply (shareWith_removeSharing 5 6 "U" (Some write) (uploaded "A" "a.pdf" 10)).
  - discriminate.
  - constructor.
Defined.

(** X13. With [strict] off, the last share wins: sharing with a user and
    then sharing again with the same user leaves the grant list that the
    second call alone would have left. *)
Theorem shareWith_shareWith (t1 t2 : Date) (userId : ObjectId)
    (p1 p2 : option Permission) (d : Pdf) :
  uploaded_by d ≠ userId →
  shared_with (shareWith false t2 userId p2 (shareWith false t1 userId p1 d).1).1
  = shared_with (shareWith false t2 userId p2 d).1.
Proof.
  intros Hne.
  destruct (shareWith_keeps false t1 userId p1 d) as (Ho & _).
  rewrite (shareWith_shared_with false t2 userId p2 (shareWith false t1 userId p1 d).1)
    by congruence.
  rewrite !shareWith_shared_with by done.
  destruct (list_find (share_matches userId) (shared_with d))
    as [[i g]|] eqn:Hf.
  - pose proof Hf as (_ & Hm & _)%list_find_Some.
    erewrite list_find_insert_match; [|exact Hf|exact Hm].
    cbn. by rewrite list_insert_insert_eq.
  - erewrite list_find_app_match; [|exact Hf|reflexivity].
    cbn. rewrite insert_app_r_alt by lia.
    by rewrite Nat.sub_diag.
Qed.

Lemma shareWith_shareWith_witness :
  shared_with (shareWith false 6 "U" (Some read)
                 (shareWith false 5 "U" (Some write) (uploaded "A" "a.pdf" 10)).1).1
  = [mkGrant None (Some "U") (Some read) (Some 6%Z)].
Proof.
  rewrite (shareWith_shareWith 5 6 "U" (Some write) (Some read)
             (uploaded "A" "a.pdf" 10)); [reflexivity|].
  discriminate.
Defined.

(** X14. With [strict] on, on a document whose entries are shaped as the
    schema declares them, removing a grant right after sharing with the same
    user throws 'PDF is not shared with this user', and the entry that the
    share appended stays in the list. *)
Theorem shareWith_strict_removeSharing (t1 t2 : Date) (userId : ObjectId)
    (permission_arg : option Permission) (d : Pdf) :
  uploaded_by d ≠ userId →
  Forall (λ g, user_id g = None) (shared_with d) →
  let d1 := (shareWith true t1 userId permission_arg d).1 in
  removeSharing t2 userId d1 = (d1, Threw "PDF is not shared with this user")
  ∧ length (shared_with d1) = S (length (shared_with d)).
Proof.
  intros Hne Hdecl d1.
  assert (Hl : shared_with d1 =
               (shared_with d ++
                  [mkGrant None None (Some (default read permission_arg)) None])%list).
  { unfold d1. by rewrite shareWith_shared_with, list_find_declared by done. }
  split.
  - unfold removeSharing. rewrite bool_decide_eq_false_2.
    + rewrite list_find_declared; [done|].
      by apply shareWith_strict_declared.
    + rewrite Hl, length_app. cbn. lia.
  - rewrite Hl, length_app. cbn. lia.
Qed.

Lemma shareWith_strict_removeSharing_witness :
  removeSharing 6 "U" (shareWith true 5 "U" (Some write) (uploaded "A" "a.pdf" 10)).1
  = ((shareWith true 5 "U" (Some write) (uploaded "A" "a.pdf" 10)).1,
     Threw "PDF is not shared with this user").
Proof.
  apply (shareWith_strict_removeSharing 5 6 "U" (Some write) (uploaded "A" "a.pdf" 10)).
  - discriminate.
  - constructor.
Defined.

(** X15. The three ways [removeSharing] ends. It throws 'PDF is not shared
    with any users' exactly on an empty grant list, and 'PDF is not shared
    with this user' exactly on a non-empty list in which no entry carries the
    user under [user_id]; in both cases the document is left as it was.
    Otherwise it returns the result of the save, and the list has lost one
    entry: the first that carries the user. *)
Theorem removeSharing_outcomes (now : Date) (userId : ObjectId) (d : Pdf) :
  match (removeSharing now userId d).2 with
  | Threw msg =>
      (removeSharing now userId d).1 = d
      ∧ ((msg = "PDF is not shared with any users" ∧ shared_with d = [])
         ∨ (msg = "PDF is not shared with this user"
            ∧ shared_with d ≠ []
            ∧ Forall (λ share, user_id share ≠ Some userId) (shared_with d)))
  | Returned r =>
      ∃ (i : nat) share,
        list_find (share_matches userId) (shared_with d) = Some (i, share)
        ∧ shared_with (removeSharing now userId d).1 = delete i (shared_with d)
        ∧ S (length (shared_with (removeSharing now userId d).1))
          = length (shared_with d)
  end.
Proof.
  destruct (list_find (share_matches userId) (shared_with d))
    as [[i share]|] eqn:Hf.
  - destruct (removeSharing_found now userId d i share Hf) as [Hs [r Hr]].
    rewrite Hr. exists i, share. split_and!; [done..|].
    rewrite Hs, length_delete.
    + apply list_find_Some in Hf as (Hi%lookup_lt_Some & _). lia.
    + apply list_find_Some in Hf as (Hi & _). eauto.
  - unfold removeSharing. case_bool_decide as Hlen; cbn.
    + split; [done|]. left. split; [done|].
      by destruct (shared_with d).
    + rewrite Hf. cbn. split; [done|]. right. split_and!; [done| |].
      * intros E. by rewrite E in Hlen.
      * by apply list_find_None in Hf.
Qed.

(** X16. The two ways [shareWith] ends. It throws, and leaves the document
    as it was, exactly when the target is the owner. Otherwise it returns
    the result of a save, and the grant list has kept its length when an
    entry carried the user under [user_id], and has one more entry when none
    did: the call never removes an entry. *)
Theorem shareWith_outcomes (strict : bool) (now : Date) (userId : ObjectId)
    (permission_arg : option Permission) (d : Pdf) :
  match (shareWith strict now userId permission_arg d).2 with
  | Threw msg =>
      msg = "Cannot share PDF with owner"
      ∧ uploaded_by d = userId
      ∧ (shareWith strict now userId permission_arg d).1 = d
  | Returned r =>
      uploaded_by d ≠ userId
      ∧ length (shared_with (shareWith strict now userId permission_arg d).1)
        = if decide (Exists (λ share, user_id share = Some userId) (shared_with d))
          then length (shared_with d)
          else S (length (shared_with d))
  end.
Proof.
  destruct (decide (uploaded_by d = userId)) as [Hown|Hown].
  - unfold shareWith. rewrite bool_decide_eq_true_2 by done. done.
  - pose proof (shareWith_shared_with strict now userId permission_arg d Hown) as Hs.
    assert (Hr : ∃ r, (shareWith strict now userId permission_arg d).2 = Returned r).
    { unfold shareWith. rewrite bool_decide_eq_false_2 by done.
      destruct (save now _) as [d' r]. by exists r. }
    destruct Hr as [r ->]. split; [done|]. rewrite Hs.
    destruct (list_find (share_matches userId) (shared_with d))
      as [[i share]|] eqn:Hf.
    + rewrite length_insert, decide_True; [done|].
      apply list_find_Some in Hf as (Hi & Hm & _).
      apply Exists_exists. exists share. split; [|done].
      by eapply list_elem_of_lookup_2.
    + rewrite length_app, decide_False; [cbn; lia|].
      apply list_find_None in Hf. by apply Forall_not_Exists.
Qed.

(** X17. [shareWith] changes the grant list before it saves: on a document
    that does not pass validation the call returns the ValidationError of
    the save, with the errors the document had before the call, while the
    grant list in memory already carries the new entry. *)
Theorem shareWith_rejected_save (strict : bool) (now : Date) (userId : ObjectId)
    (permission_arg : option Permission) (d : Pdf) :
  validate d ≠ [] →
  uploaded_by d ≠ userId →
  Forall (λ share, user_id share ≠ Some userId) (shared_with d) →
  (shareWith strict now userId permission_arg d).2
  = Returned (ValidationError (validate d))
  ∧ shared_with (shareWith strict now userId permission_arg d).1
    = (shared_with d ++
         [stored strict (mkGrant None (Some userId)
                                 (Some (default read permission_arg)) (Some now))])%list.
Proof.
  intros Hv Hne Hall.
  assert (Hnone : list_find (share_matches userId) (shared_with d) = None)
    by by apply list_find_None.
  split.
  - unfold shareWith. rewrite bool_decide_eq_false_2, Hnone by done.
    match goal with |- context [save now ?x] =>
      rewrite (save_invalid now x) by exact Hv
    end. reflexivity.
  - by rewrite shareWith_shared_with, Hnone by done.
Qed.

Lemma shareWith_rejected_save_witness :
  (shareWith true 5 "U" (Some read)
     (set_original_name None (uploaded "A" "a.pdf" 10))).2
  = Returned (ValidationError
                [mkError "original_name" "Path `original_name` is required."])
  ∧ shared_with (shareWith true 5 "U" (Some read)
                   (set_original_name None (uploaded "A" "a.pdf" 10))).1
    = [mkGrant None None (Some read) None].
Proof.
  apply (shareWith_rejected_save true 5 "U" (Some read)
           (set_original_name None (uploaded "A" "a.pdf" 10))).
  - discriminate.
  - discriminate.
  - constructor.
Defined.

(** ** Listing and access *)

(** X18. On documents that are not shared with anybody, the listing and the
    access check agree: [findByUser] returns exactly the documents of the
    collection to which [hasAccess] admits the user. *)
Theorem findByUser_unshared (userId : ObjectId) (collection : list Pdf) :
  Forall (λ d, shared_with d = []) collection →
  findByUser userId collection
  = filter (λ d, hasAccess userId d = true) collection.
Proof.
  unfold findByUser. induction 1 as [|d l Hd _ IH]; [done|].
  rewrite !filter_cons, IH.
  assert (Hiff : visible_to userId d ↔ hasAccess userId d = true).
  { rewrite hasAccess_unfold, negb_true_iff, bool_decide_eq_false,
      getUserPermission_cases.
    unfold visible_to. rewrite Hd. cbn.
    case_bool_decide as Ho.
    - split; [done|]. intros _. by left.
    - destruct (is_public d).
      + split; [done|]. intros _. right. by left.
      + split; [|done]. intros [E|[E|E]]; [by subst | done | by inversion E]. }
  destruct (decide (visible_to userId d)) as [Hv|Hv];
    destruct (decide (hasAccess userId d = true)) as [Ha|Ha];
    try reflexivity; exfalso; tauto.
Qed.

Lemma findByUser_unshared_witness :
  findByUser "U" [uploaded "A" "a.pdf" 10; uploaded "U" "b.pdf" 20]
  = [uploaded "U" "b.pdf" 20].
Proof.
  rewrite (findByUser_unshared "U"); [reflexivity|].
  repeat constructor.
Defined.

(** ** The [size_mb] virtual *)

Lemma mb_hundredths_bounds (z : Z) :
  (100 * Z.abs z - 2 ^ 19 < Z.of_N (mb_hundredths z) * 2 ^ 20 ≤ 100 * Z.abs z + 2 ^ 19)%Z.
Proof.
  unfold mb_hundredths.
  assert (H0 : (0 ≤ (100 * Z.abs z + 2 ^ 19) / 2 ^ 20)%Z)
    by (apply Z.div_pos; lia).
  rewrite Z2N.id by exact H0.
  pose proof (Z.div_mod (100 * Z.abs z + 2 ^ 19) (2 ^ 20) ltac:(lia)) as Hdm.
  pose proof (Z.mod_pos_bound (100 * Z.abs z + 2 ^ 19) (2 ^ 20) ltac:(lia)) as Hm.
  lia.
Qed.

(** X19. For a size that is not negative (and below 2^53, where sizes are
    exact), [size_mb] writes the number of hundredths of a mebibyte nearest
    to the size: what it shows is off by at most half a hundredth. *)
Theorem size_mb_nearest (d : Pdf) (z : Z) :
  size d = Some z → (0 ≤ z < 2 ^ 53)%Z →
  ∃ n : N, size_mb d = toFixed2_digits n
           ∧ (2 * Z.abs (100 * z - Z.of_N n * 2 ^ 20) ≤ 2 ^ 20)%Z.
Proof.
  intros Hs Hz. exists (mb_hundredths z). split.
  - unfold size_mb. rewrite Hs, bool_decide_eq_false_2 by lia. reflexivity.
  - pose proof (mb_hundredths_bounds z). lia.
Qed.

Lemma size_mb_nearest_witness :
  ∃ n : N, size_mb (uploaded "A" "a.pdf" 123456789) = toFixed2_digits n
           ∧ (2 * Z.abs (100 * 123456789 - Z.of_N n * 2 ^ 20) ≤ 2 ^ 20)%Z.
Proof.
  apply (size_mb_nearest (uploaded "A" "a.pdf" 123456789) 123456789);
    [reflexivity | lia].
Defined.

(** X20. What [size_mb] shows at the edges: "0.00" for every size from 0 to
    5242 bytes, "k.00" for a size of exactly k mebibytes (below 2^53 bytes),
    and "NaN" when the size is absent. *)
Theorem size_mb_edges (d : Pdf) :
  (∀ z, size d = Some z → (0 ≤ z ≤ 5242)%Z → size_mb d = "0.00")
  ∧ (∀ k, size d = Some (k * 2 ^ 20)%Z → (0 ≤ k < 2 ^ 33)%Z →
       size_mb d = pretty (Z.to_N k) +:+ ".00")
  ∧ (size d = None → size_mb d = "NaN").
Proof.
  split_and!.
  - intros z Hs Hz. unfold size_mb, mb_hundredths.
    rewrite Hs, bool_decide_eq_false_2 by lia.
    rewrite Z.div_small by lia. reflexivity.
  - intros k Hs Hk. unfold size_mb, mb_hundredths.
    rewrite Hs, bool_decide_eq_false_2 by lia.
    replace ((100 * Z.abs (k * 2 ^ 20) + 2 ^ 19) / 2 ^ 20)%Z with (100 * k)%Z.
    + replace (Z.to_N (100 * k)) with (Z.to_N k * 100)%N by lia.
      unfold toFixed2_digits.
      rewrite N.div_mul by lia.
      replace ((Z.to_N k * 100) mod 100)%N with 0%N
        by (symmetry; apply N.Div0.mod_mul).
      replace ((Z.to_N k * 100) mod 10)%N with 0%N.
      * reflexivity.
      * replace (Z.to_N k * 100)%N with (Z.to_N k * 10 * 10)%N by lia.
        symmetry; apply N.Div0.mod_mul.
    + apply Z.div_unique with (r := (2 ^ 19)%Z); lia.
  - intros Hs. unfold size_mb. by rewrite Hs.
Qed.

Lemma size_mb_edges_witness :
  size_mb (uploaded "A" "a.pdf" 5242) = "0.00".
Proof.
  apply (size_mb_edges (uploaded "A" "a.pdf" 5242)) with (z := 5242%Z);
    [reflexivity | lia].
Defined.

End Pdfs.

(** * Properties of the sign-up form *)

Module SignUpFacts.
Import SignUp.
Local Open Scope list_scope.

(** ** The matcher against the language *)

Lemma nullable_spec (r : regex) : nullable r = true ↔ lang r [].
Proof.
  induction r as [| |f|r1 IH1 r2 IH2|r1 IH1 r2 IH2|r IH]; cbn.
  - split; [done|]. inversion 1.
  - split; [constructor|done].
  - split; [done|]. inversion 1.
  - rewrite andb_true_iff, IH1, IH2. split.
    + intros [H1 H2]. apply (lang_seq _ _ [] [] H1 H2).
    + inversion 1 as [| |? ? s1 s2 H1 H2 E1 E2| | | |]; subst.
      apply app_eq_nil in E2 as [-> ->]. done.
  - rewrite orb_true_iff, IH1, IH2. split.
    + intros [H|H]; [by apply lang_alt_l | by apply lang_alt_r].
    + inversion 1; subst; auto.
  - split; [constructor|done].
Qed.

Lemma deriv_sound (c : ascii) (r : regex) (s : list ascii) :
  lang (deriv c r) s → lang r (c :: s).
Proof.
  revert s. induction r as [| |f|r1 IH1 r2 IH2|r1 IH1 r2 IH2|r IH]; cbn; intros s H.
  - inversion H.
  - inversion H.
  - destruct (f c) eqn:Hf; inversion H; subst. by constructor.
  - destruct (nullable r1) eqn:Hn.
    + inversion H as [| | |? ? ? HL|? ? ? HR| |]; subst.
      * inversion HL as [| |? ? s1 s2 H1 H2| | | |]; subst.
        apply (lang_seq _ _ (c :: s1) s2); auto.
      * apply nullable_spec in Hn.
        apply (lang_seq _ _ [] (c :: s)); auto.
    + inversion H as [| |? ? s1 s2 H1 H2| | | |]; subst.
      apply (lang_seq _ _ (c :: s1) s2); auto.
  - inversion H; subst; [apply lang_alt_l | apply lang_alt_r]; auto.
  - inversion H as [| |? ? s1 s2 H1 H2| | | |]; subst.
    apply (lang_star_cons _ (c :: s1) s2); auto.
Qed.

Lemma deriv_complete (c : ascii) (r : regex) (s : list ascii) :
  lang r (c :: s) → lang (deriv c r) s.
Proof.
  intros H. remember (c :: s) as cs eqn:E. revert s E.
  induction H as [|f c' Hf|r1 r2 s1 s2 H1 IH1 H2 IH2|r1 r2 s0 H IH|r1 r2 s0 H IH
                 |r|r s1 s2 H1 IH1 H2 IH2]; intros s E; cbn.
  - discriminate.
  - injection E as -> <-. rewrite Hf. constructor.
  - destruct s1 as [|c1 s1]; cbn in E.
    + subst s2. apply nullable_spec in H1. rewrite H1.
      apply lang_alt_r. by apply IH2.
    + injection E as -> <-.
      assert (Hs : lang (Seq (deriv c r1) r2) (s1 ++ s2))
        by (constructor; auto).
      destruct (nullable r1); [by apply lang_alt_l | exact Hs].
  - apply lang_alt_l. by apply IH.
  - apply lang_alt_r. by apply IH.
  - discriminate.
  - destruct s1 as [|c1 s1]; cbn in E.
    + by apply IH2.
    + injection E as -> <-. constructor; auto.
Qed.

Lemma matchb_spec (r : regex) (s : list ascii) : matchb r s = true ↔ lang r s.
Proof.
  revert r. induction s as [|c s IH]; intros r; cbn.
  - apply nullable_spec.
  - rewrite IH. split; [apply deriv_sound | apply deriv_complete].
Qed.

(** ** The pieces of the e-mail expression *)

Lemma lang_star_class (f : ascii → bool) (w : list ascii) :
  lang (Star (Class f)) w ↔ Forall (λ c, f c = true) w.
Proof.
  split.
  - intros H. remember (Star (Class f)) as r eqn:E.
    induction H as [| | | | | |r s1 s2 H1 _ H2 IH2]; try discriminate.
    + constructor.
    + injection E as ->. inversion H1; subst. cbn. constructor; auto.
  - induction 1 as [|c w Hc _ IH]; [constructor|].
    apply (lang_star_cons _ [c] w); [by constructor | exact IH].
Qed.

Lemma lang_plus_class (f : ascii → bool) (w : list ascii) :
  lang (Plus (Class f)) w ↔ w ≠ [] ∧ Forall (λ c, f c = true) w.
Proof.
  unfold Plus. split.
  - inversion 1 as [| |? ? s1 s2 H1 H2| | | |]; subst.
    inversion H1; subst. apply lang_star_class in H2. cbn.
    split; [done | by constructor].
  - intros [Hne Hall]. destruct Hall as [|c w Hc Hw]; [done|].
    apply (lang_seq _ _ [c] w); [by constructor | by apply lang_star_class].
Qed.

Lemma lang_lit (c : ascii) (w : list ascii) : lang (Lit c) w ↔ w = [c].
Proof.
  unfold Lit. split.
  - inversion 1 as [|? c' Hc| | | | |]; subst.
    apply Ascii.eqb_eq in Hc. by subst.
  - intros ->. constructor. apply Ascii.eqb_refl.
Qed.

Lemma lang_any_star (w : list ascii) : lang (Star any) w.
Proof. apply lang_star_class. by apply Forall_true. Qed.

Lemma lang_seq_iff (r1 r2 : regex) (w : list ascii) :
  lang (Seq r1 r2) w ↔ ∃ w1 w2, w = w1 ++ w2 ∧ lang r1 w1 ∧ lang r2 w2.
Proof.
  split.
  - inversion 1; subst. eauto.
  - intros (w1 & w2 & -> & H1 & H2). by constructor.
Qed.

(** Conversions between strings and lists of code units. *)
Lemma list_of_app (a b : string) :
  String.list_ascii_of_string (a +:+ b)
  = String.list_ascii_of_string a ++ String.list_ascii_of_string b.
Proof.
  induction a as [|c a IH]; [done|].
  change (String c a +:+ b) with (String c (a +:+ b)). cbn. f_equal. exact IH.
Qed.

Lemma list_of_inj (a b : string) :
  String.list_ascii_of_string a = String.list_ascii_of_string b → a = b.
Proof.
  intros H. rewrite <- (String.string_of_list_ascii_of_string a),
    <- (String.string_of_list_ascii_of_string b). by rewrite H.
Qed.

Lemma list_of_string_of (l : list ascii) :
  String.list_ascii_of_string (String.string_of_list_ascii l) = l.
Proof. apply String.list_ascii_of_string_of_list_ascii. Qed.

Lemma word_list (l : list ascii) :
  word (String.string_of_list_ascii l) ↔ l ≠ [] ∧ Forall (λ c, negb (is_space c) = true) l.
Proof.
  unfold word. rewrite list_of_string_of. split.
  - intros [Hne Hall]. split.
    + intros ->. by apply Hne.
    + eapply Forall_impl; [exact Hall|]. cbn. by intros c ->.
  - intros [Hne Hall]. split.
    + intros E. apply Hne. destruct l; [done | discriminate E].
    + eapply Forall_impl; [exact Hall|]. cbn. intros c. by destruct (is_space c).
Qed.

(** [test] succeeds exactly when some substring is in the language. *)
Lemma test_spec (r : regex) (s : string) :
  test r s = true ↔
  ∃ pre m post, String.list_ascii_of_string s = pre ++ m ++ post ∧ lang r m.
Proof.
  unfold test. rewrite matchb_spec, lang_seq_iff. split.
  - intros (pre & rest & E & _ & (m & post & -> & Hm & _)%lang_seq_iff).
    by exists pre, m, post.
  - intros (pre & m & post & E & Hm). exists pre, (m ++ post).
    split_and!; [done | apply lang_any_star |].
    constructor; [done | apply lang_any_star].
Qed.

Lemma test_email_spec (s : string) :
  test email_regex s = true ↔
  ∃ pre a x c post,
    s = pre +:+ a +:+ "@" +:+ x +:+ "." +:+ c +:+ post
    ∧ word a ∧ word x ∧ word c.
Proof.
  rewrite test_spec. unfold email_regex, non_space. split.
  - intros (pre & m & post & E & Hm).
    apply lang_seq_iff in Hm as (a & m1 & -> & Ha & Hm).
    apply lang_seq_iff in Hm as (at' & m2 & -> & Hat & Hm).
    apply lang_seq_iff in Hm as (x & m3 & -> & Hx & Hm).
    apply lang_seq_iff in Hm as (dot & c & -> & Hdot & Hc).
    apply lang_lit in Hat as ->. apply lang_lit in Hdot as ->.
    apply lang_plus_class in Ha, Hx, Hc.
    exists (String.string_of_list_ascii pre), (String.string_of_list_ascii a),
      (String.string_of_list_ascii x), (String.string_of_list_ascii c),
      (String.string_of_list_ascii post).
    split_and!; try by apply word_list.
    apply list_of_inj. rewrite E, !list_of_app, !list_of_string_of.
    cbn. by repeat (rewrite <- ?app_assoc; cbn -[app]; try rewrite <- !app_comm_cons).
  - intros (pre & a & x & c & post & -> & Ha & Hx & Hc).
    exists (String.list_ascii_of_string pre),
      (String.list_ascii_of_string (a +:+ "@" +:+ x +:+ "." +:+ c)),
      (String.list_ascii_of_string post).
    split.
    + rewrite !list_of_app, <- !app_assoc. reflexivity.
    + rewrite !list_of_app.
      rewrite <- (String.string_of_list_ascii_of_string a) in Ha.
      rewrite <- (String.string_of_list_ascii_of_string x) in Hx.
      rewrite <- (String.string_of_list_ascii_of_string c) in Hc.
      apply word_list in Ha, Hx, Hc.
      repeat (constructor; try by apply lang_plus_class).
Qed.

(** X21. The e-mail test succeeds exactly on the strings that contain,
    anywhere, a non-empty run without white space, then "@", then another
    such run, then ".", then another such run. *)
Theorem email_test_iff (s : string) :
  test email_regex s = true ↔
  ∃ pre a x c post,
    s = pre +:+ a +:+ "@" +:+ x +:+ "." +:+ c +:+ post
    ∧ word a ∧ word x ∧ word c.
Proof. apply test_email_spec. Qed.

(** X22. The e-mail expression is not anchored: a string that passes the
    test still passes with any text, white space included, before and after
    it. *)
Theorem email_test_embedded (pre s post : string) :
  test email_regex s = true →
  test email_regex (pre +:+ s +:+ post) = true.
Proof.
  rewrite !test_spec. intros (p & m & q & E & Hm).
  exists (String.list_ascii_of_string pre ++ p), m,
    (q ++ String.list_ascii_of_string post).
  split; [|exact Hm].
  rewrite !list_of_app, E, <- !app_assoc. reflexivity.
Qed.

Lemma email_test_embedded_witness :
  test email_regex ("write to " +:+ "a@b.c" +:+ " today") = true.
Proof. apply (email_test_embedded "write to " "a@b.c" " today"). reflexivity. Defined.

(** ** [validateForm] *)

(** What each field has to satisfy. *)
Lemma truthy_length (v : option string) : truthy v = true ↔ (0 < length_of v)%nat.
Proof.
  unfold truthy, length_of. destruct v as [[|c s]|]; cbn; split; (done || lia).
Qed.

Lemma test_email_truthy (v : option string) :
  test email_regex (default "" v) = true → truthy v = true.
Proof. destruct v as [[|c s]|]; cbn; done. Qed.

(** The entry [validateForm] leaves under each key. *)
Lemma newErrors_fullName (form : gmap string string) :
  newErrors form !! "fullName" =
    if negb (truthy (form !! "fullName")) then Some "Full name is required"
    else if (length_of (form !! "fullName") <? 3)%nat
         then Some "Full name must be at least 3 characters"
    else if (50 <? length_of (form !! "fullName"))%nat
         then Some "Full name must be less than 50 characters"
    else None.
Proof. unfold newErrors. repeat case_match; by simplify_map_eq. Qed.

Lemma newErrors_email (form : gmap string string) :
  newErrors form !! "email" =
    if negb (truthy (form !! "email")) then Some "Email is required"
    else if negb (test email_regex (default "" (form !! "email")))
         then Some "Please enter a valid email address"
    else None.
Proof. unfold newErrors. repeat case_match; by simplify_map_eq. Qed.

Lemma newErrors_password (form : gmap string string) :
  newErrors form !! "password" =
    if negb (truthy (form !! "password")) then Some "Password is required"
    else if (length_of (form !! "password") <? 6)%nat
         then Some "Password must be at least 6 characters"
    else None.
Proof. unfold newErrors. repeat case_match; by simplify_map_eq. Qed.

Lemma newErrors_other (form : gmap string string) (k : string) :
  k ≠ "fullName" → k ≠ "email" → k ≠ "password" → newErrors form !! k = None.
Proof. intros. unfold newErrors. repeat case_match; by simplify_map_eq. Qed.

(** Which keys carry an entry. *)
Lemma newErrors_is_Some (form : gmap string string) (k : string) :
  is_Some (newErrors form !! k) ↔
    (k = "fullName" ∧ ¬ (3 ≤ length_of (form !! "fullName") ≤ 50)%nat)
    ∨ (k = "email" ∧ test email_regex (default "" (form !! "email")) = false)
    ∨ (k = "password" ∧ (length_of (form !! "password") < 6)%nat).
Proof.
  destruct (decide (k = "fullName")) as [->|Hf].
  { rewrite newErrors_fullName.
    pose proof (truthy_length (form !! "fullName")) as Ht.
    destruct (truthy (form !! "fullName"));
      cbv [negb].
    - destruct (Nat.ltb_spec (length_of (form !! "fullName")) 3);
        [|destruct (Nat.ltb_spec 50 (length_of (form !! "fullName")))].
      + split; [intros _; left; split; [done|lia] | by intros _; eexists].
      + split; [intros _; left; split; [done|lia] | by intros _; eexists].
      + split; [by intros [? [=]] | intros [[_ H']|[[[=] _]|[[=] _]]]; lia].
    - split; [intros _; left; split; [done|] | by intros _; eexists].
      assert (¬ (0 < length_of (form !! "fullName"))%nat) by (rewrite <- Ht; done).
      lia. }
  destruct (decide (k = "email")) as [->|He].
  { rewrite newErrors_email.
    pose proof (test_email_truthy (form !! "email")) as Ht.
    destruct (truthy (form !! "email"));
      cbv [negb].
    - destruct (test email_regex (default "" (form !! "email")));
      cbv [negb].
      + split; [by intros [? [=]] | intros [[[=] _]|[[_ [=]]|[[=] _]]]].
      + split; [intros _; right; left; done | by intros _; eexists].
    - split; [intros _; right; left; split; [done|] | by intros _; eexists].
      destruct (test email_regex (default "" (form !! "email"))); [|done].
      by specialize (Ht eq_refl). }
  destruct (decide (k = "password")) as [->|Hp].
  { rewrite newErrors_password.
    pose proof (truthy_length (form !! "password")) as Ht.
    destruct (truthy (form !! "password"));
      cbv [negb].
    - destruct (Nat.ltb_spec (length_of (form !! "password")) 6).
      + split; [intros _; right; right; done | by intros _; eexists].
      + split; [by intros [? [=]] | intros [[[=] _]|[[[=] _]|[_ H']]]; lia].
    - split; [intros _; right; right; split; [done|] | by intros _; eexists].
      assert (¬ (0 < length_of (form !! "password"))%nat) by (rewrite <- Ht; done).
      lia. }
  rewrite newErrors_other by done.
  split; [by intros [? [=]] | intros [[? _]|[[? _]|[? _]]]; done].
Qed.

Lemma validateForm_result (st : State) :
  (validateForm st).2 = true ↔ newErrors (formData st) = ∅.
Proof.
  unfold validateForm. cbn. rewrite bool_decide_eq_true, length_fmap.
  rewrite <- map_to_list_empty_iff.
  split; [apply nil_length_inv | by intros ->].
Qed.

(** X23. [validateForm] returns true exactly when the full name has 3 to 50
    characters (50 included), the e-mail address passes the test, and the
    password has at least 6 characters; and exactly then the errors it stores
    are empty. *)
Theorem validateForm_true_iff (st : State) :
  ((validateForm st).2 = true ↔
     (3 ≤ length_of (formData st !! "fullName") ≤ 50)%nat
     ∧ test email_regex (default "" (formData st !! "email")) = true
     ∧ (6 ≤ length_of (formData st !! "password"))%nat)
  ∧ ((validateForm st).2 = true ↔ errors (validateForm st).1 = ∅).
Proof.
  split; [|apply validateForm_result].
  rewrite validateForm_result, map_empty.
  split.
  - intros Hnone.
    assert (Hno : ∀ k, ¬ is_Some (newErrors (formData st) !! k))
      by (intros k; rewrite Hnone; by intros [? [=]]).
    setoid_rewrite newErrors_is_Some in Hno.
    split; [|split].
    + destruct (decide (3 ≤ length_of (formData st !! "fullName") ≤ 50)%nat);
        [done|]. exfalso. eapply Hno. eauto.
    + destruct (test email_regex (default "" (formData st !! "email"))) eqn:E;
        [done|]. exfalso. eapply Hno. eauto.
    + destruct (decide (6 ≤ length_of (formData st !! "password"))%nat);
        [done|]. exfalso. eapply (Hno "password"). right; right. split; [done|lia].
  - intros (Hn & He & Hp) k.
    apply eq_None_not_Some. rewrite newErrors_is_Some.
    intros [[_ H]|[[_ H]|[_ H]]]; [done | congruence | lia].
Qed.

(** X24. [validateForm] replaces the stored errors: afterwards a key has an
    entry exactly when it is one of the three fields and that field fails its
    check; whatever else the errors held before is gone. *)
Theorem validateForm_errors (st : State) (k : string) :
  is_Some (errors (validateForm st).1 !! k) ↔
    (k = "fullName" ∧ ¬ (3 ≤ length_of (formData st !! "fullName") ≤ 50)%nat)
    ∨ (k = "email" ∧ test email_regex (default "" (formData st !! "email")) = false)
    ∨ (k = "password" ∧ (length_of (formData st !! "password") < 6)%nat).
Proof. apply newErrors_is_Some. Qed.

(** ** [handleInputChange] *)

(** The form data after [handleInputChange]. *)
Lemma handleInputChange_form (name value : string) (st : State) :
  formData (handleInputChange name value st) = <[name := value]> (formData st).
Proof. unfold handleInputChange. by destruct (truthy (errors st !! name)). Qed.


(** X25. [handleInputChange] stores the value under the name of the field
    and leaves the other fields alone; afterwards the error of that field is
    empty or absent, and the errors of the other fields, the password
    visibility and the loading flag are as before. *)
Theorem handleInputChange_effect (name value : string) (st : State) :
  let st' := handleInputChange name value st in
  formData st' = <[name := value]> (formData st)
  ∧ truthy (errors st' !! name) = false
  ∧ (∀ k, k ≠ name → errors st' !! k = errors st !! k)
  ∧ showPassword st' = showPassword st
  ∧ isLoading st' = isLoading st.
Proof.
  unfold handleInputChange.
  destruct (truthy (errors st !! name)) eqn:E; cbn.
  - split_and!; try done.
    + by rewrite lookup_insert_eq.
    + intros k Hk. by rewrite lookup_insert_ne.
  - split_and!; done.
Qed.

(** X26. The verdict of [validateForm] depends on the form data alone: once
    the three fields have been typed in, whatever the state was before, the
    form is accepted exactly when the three typed values pass. *)
Theorem validateForm_after_typing (n e p : string) (st : State) :
  (validateForm
     (handleInputChange "password" p
        (handleInputChange "email" e
           (handleInputChange "fullName" n st)))).2 = true
  ↔ (3 ≤ String.length n ≤ 50)%nat
    ∧ test email_regex e = true
    ∧ (6 ≤ String.length p)%nat.
Proof.
  rewrite validateForm_result.
  set (st3 := handleInputChange "password" p _).
  assert (Hf : formData st3
               = <["password" := p]> (<["email" := e]> (<["fullName" := n]> (formData st)))).
  { unfold st3.
    repeat match goal with
    | |- context [handleInputChange ?a ?b ?c] =>
        rewrite (handleInputChange_form a b c)
    end. reflexivity. }
  rewrite Hf, map_empty. split.
  - intros Hnone.
    assert (Hno : ∀ k, ¬ is_Some (newErrors
              (<["password" := p]> (<["email" := e]> (<["fullName" := n]> (formData st)))) !! k))
      by (intros k; rewrite Hnone; by intros [? [=]]).
    setoid_rewrite newErrors_is_Some in Hno.
    simplify_map_eq. unfold length_of in Hno. cbn in Hno.
    split; [|split].
    + destruct (decide (3 ≤ String.length n ≤ 50)%nat); [done|].
      exfalso. eapply Hno. eauto.
    + destruct (test email_regex e) eqn:E; [done|]. exfalso. eapply Hno. eauto.
    + destruct (decide (6 ≤ String.length p)%nat); [done|].
      exfalso. eapply (Hno "password"). right; right. split; [done|lia].
  - intros (Hn & He & Hp) k.
    apply eq_None_not_Some. rewrite newErrors_is_Some.
    simplify_map_eq. unfold length_of. cbn.
    intros [[_ H]|[[_ H]|[_ H]]]; [done | congruence | lia].
Qed.

End SignUpFacts.
